(** * Week3/GCN-Graph/GCN.py: a shallow embedding and its properties

    The script trains a five-layer graph convolutional network on the first
    [sub_nodes] nodes of a product graph.  This file embeds, in order,

    - the library calls the script makes (torch, numpy, torch_sparse,
      torch_geometric, ogb), each with the behaviour the script relies on,
      errors included: a raised exception is [None];
    - the script itself: sub-graph extraction, the split generator, the
      class [GCN], the helper [test] and the training loop;
    - the properties of the script, one theorem per property.

    Tensors of floats hold real numbers here: rounding is not modelled. *)

From Stdlib Require Import Reals Lra Lia.
From stdpp Require Import gmap strings list.

(** ** numpy and torch on index vectors *)

(** [torch.arange(n)] *)
Definition arange (n : nat) : list nat := seq 0 n.

(** The state of [np.random], seen through [random_interval]: one number for
    each call, and the position of the next call.  numpy masks raw 32-bit
    draws and rejects them until one is at most [max]; how many raw draws a
    call takes is not modelled, only that the accepted value can be any
    value of the interval. *)
Record RandomState := mkRandomState {
  np_draws : nat -> nat;
  np_pos : nat
}.

(** [random_interval(max)]: the accepted value, in [0, max], both ends
    included. *)
Definition random_interval (rs : RandomState) (max : nat) : nat * RandomState :=
  (np_draws rs (np_pos rs) mod (S max),
   mkRandomState (np_draws rs) (S (np_pos rs))).

(** [x[i], x[j] = x[j], x[i]] *)
Definition swap (l : list nat) (i j : nat) : list nat :=
  match l !! i, l !! j with
  | Some a, Some b => <[i:=b]> (<[j:=a]> l)
  | _, _ => l
  end.

(** The loop of [np.random.shuffle]:
    [for i in reversed(range(1, n)): j = random_interval(i); swap x[i], x[j]].
    [shuffle_loop i] runs the iterations [i], [i-1], ..., [1]. *)
Fixpoint shuffle_loop (i : nat) (rs : RandomState) (l : list nat)
  : list nat * RandomState :=
  match i with
  | 0 => (l, rs)
  | S i' =>
      let '(j, rs') := random_interval rs i in
      shuffle_loop i' rs' (swap l i j)
  end.

Definition shuffle (rs : RandomState) (l : list nat) : list nat * RandomState :=
  shuffle_loop (length l - 1) rs l.

(** The chunks [torch.split] cuts once the sizes are accepted. *)
Fixpoint chunks (l : list nat) (sizes : list nat) : list (list nat) :=
  match sizes with
  | [] => []
  | n :: sizes' => take n l :: chunks (drop n l) sizes'
  end.

(** [torch.split(t, sizes, dim=0)] with a list of sizes: the sizes must sum
    exactly to the length of [t], anything else is a [RuntimeError]. *)
Definition torch_split (l : list nat) (sizes : list nat) : option (list (list nat)) :=
  if decide (sum_list sizes = length l) then Some (chunks l sizes) else None.

(** ** The split generator (lines 72-78 of the script) *)

(** [[int(sub_nodes*0.8), int(sub_nodes*0.05), int(sub_nodes*0.15)]]: each
    product truncated to an integer.  For node counts below 2^52 the
    truncated double product is the floor of the exact product, which is
    what is computed here. *)
Definition split_sizes (sub_nodes : nat) : list nat :=
  [sub_nodes * 80 / 100; sub_nodes * 5 / 100; sub_nodes * 15 / 100].

(** [indices = torch.arange(sub_nodes); np.random.shuffle(indices.numpy())]:
    the array shares its memory with the tensor, so the tensor is shuffled. *)
Definition indices (sub_nodes : nat) (rs : RandomState) : list nat * RandomState :=
  shuffle rs (arange sub_nodes).

(** [{s:t for t,s in zip(..., ["train", "valid", "test"])}] *)
Definition dict_of_zip (ts : list (list nat)) (ss : list string)
  : gmap string (list nat) :=
  foldl (fun d ts => <[ts.2 := ts.1]> d) ∅ (zip ts ss).

Definition split_idx (sub_nodes : nat) (rs : RandomState)
  : option (gmap string (list nat)) :=
  ts ← torch_split (indices sub_nodes rs).1 (split_sizes sub_nodes);
  Some (dict_of_zip ts ["train"; "valid"; "test"]).

(** [split_idx['train']] *)
Definition train_idx (d : gmap string (list nat)) : option (list nat) := d !! "train".

(** ** Tensors *)

(** A two-dimensional float tensor: its shape and its entries.  Entries
    outside the shape carry no meaning. *)
Record Tensor := mkTensor {
  size0 : nat;
  size1 : nat;
  item : nat -> nat -> R
}.

(** [v[idx]] for a vector [v] and a vector of positions: [IndexError] as soon
    as one position is out of range. *)
Definition gather {A} (v : list A) (idx : list nat) : option (list A) :=
  mapM (fun i => v !! i) idx.

(** [t[idx]] on the rows of a tensor. *)
Definition index_rows (t : Tensor) (idx : list nat) : option Tensor :=
  if decide (Forall (fun i => i < size0 t) idx)
  then Some (mkTensor (length idx) (size1 t) (fun i j => item t (idx !!! i) j))
  else None.

(** [v[mask]] for a boolean mask of the length of [v]. *)
Definition masked_select {A} (v : list A) (mask : list bool) : list A :=
  (filter (fun p => p.2 = true) (zip v mask)).*1.

(** ** torch_sparse.SparseTensor *)

(** The coordinates of the stored entries ([storage._row], [storage._col])
    and the sizes of the matrix.  No values are stored: every entry counts
    as one. *)
Record SparseTensor := mkSparseTensor {
  entries : list (nat * nat);
  sparse_sizes : nat * nat
}.

Definition storage_row (t : SparseTensor) : list nat := (entries t).*1.
Definition storage_col (t : SparseTensor) : list nat := (entries t).*2.

(** With [sparse_sizes=None] a size is one more than the largest index, and
    zero without indices. *)
Definition infer_size (idx : list nat) : nat :=
  match idx with
  | [] => 0
  | _ => S (max_list idx)
  end.

(** [SparseTensor(row=.., col=.., sparse_sizes=.., is_sorted=True,
    trust_data=True)]: the data is taken as it is. *)
Definition SparseTensor_new (row col : list nat) (sizes : option (nat * nat))
  : SparseTensor :=
  mkSparseTensor (zip row col)
    (default (infer_size row, infer_size col) sizes).

(** ** torch_geometric.data.Data and sub-graphs *)

(** The graph object: node features [x] (N by F), node labels [y] (one class
    id per node), the sparse adjacency [adj_t], and [edge_index] once the
    script has set it (a 2 by E tensor, kept as the list of its columns). *)
Record Data := mkData {
  x : Tensor;
  y : list nat;
  adj_t : SparseTensor;
  edge_index : option (list (nat * nat))
}.

Definition num_nodes (d : Data) : nat := size0 (x d).
Definition num_features (d : Data) : nat := size1 (x d).

(** [index_to_mask(index, size)]: [mask = zeros(size); mask[index] = True]. *)
Definition index_to_mask (index : list nat) (size : nat) : option (list bool) :=
  if decide (Forall (fun s => s < size) index)
  then Some (foldl (fun m s => <[s:=true]> m) (replicate size false) index)
  else None.

(** [torch_geometric.utils.subgraph(subset, edge_index, relabel_nodes=True,
    num_nodes=n, return_edge_mask=True)]: the edges with both ends in
    [subset], the ends renamed to their positions in [subset]. *)
Definition subgraph (subset : list nat) (ei : list (nat * nat)) (n : nat)
  : option (list (nat * nat) * list bool) :=
  node_mask ← index_to_mask subset n;
  row_mask ← gather node_mask ei.*1;
  col_mask ← gather node_mask ei.*2;
  let edge_mask := zip_with andb row_mask col_mask in
  let kept := masked_select ei edge_mask in
  let node_idx :=
    foldl (fun v sk => <[sk.1:=sk.2]> v) (replicate n 0)
          (zip subset (arange (length subset))) in
  row ← gather node_idx kept.*1;
  col ← gather node_idx kept.*2;
  Some (zip row col, edge_mask).

(** [Data.subgraph(subset)] for a vector of node positions: [edge_index] is
    replaced, node attributes ([x], [y]) are indexed by [subset], and
    [adj_t], which is neither a node nor an edge attribute, is kept as it
    is. *)
Definition Data_subgraph (d : Data) (subset : list nat) : option Data :=
  ei' ← match edge_index d with
        | Some ei => r ← subgraph subset ei (num_nodes d); Some (Some r.1)
        | None => Some None
        end;
  x' ← index_rows (x d) subset;
  y' ← gather (y d) subset;
  Some (mkData x' y' (adj_t d) ei').

(** ** Sub-graph extraction (lines 51-64 of the script) *)

(** [data.edge_index = torch.stack([row, col])], then
    [sub_graph = data.subgraph(torch.arange(sub_nodes))], then the
    adjacency of the sub-graph is rebuilt from its [edge_index] with
    [sparse_sizes=None]. *)
Definition sub_graph (data : Data) (sub_nodes : nat) : option Data :=
  let data :=
    mkData (x data) (y data) (adj_t data)
           (Some (zip (storage_row (adj_t data)) (storage_col (adj_t data)))) in
  sg ← Data_subgraph data (arange sub_nodes);
  ei ← edge_index sg;
  Some (mkData (x sg) (y sg) (SparseTensor_new ei.*1 ei.*2 None) (edge_index sg)).

(** The invariants of a graph object: the adjacency names only node
    positions below the node count, and there is one label per node. *)
Definition edges_within (n : nat) (ei : list (nat * nat)) : Prop :=
  Forall (fun e => e.1 < n ∧ e.2 < n) ei.

Definition wf_Data (d : Data) : Prop :=
  edges_within (num_nodes d) (entries (adj_t d)) ∧ length (y d) = num_nodes d.

(** A graph on three nodes with two features, used as an example input. *)
Definition example_graph : Data :=
  mkData (mkTensor 3 2 (fun i j => INR (i + j)))
         [0; 1; 0]
         (mkSparseTensor [(0, 1); (1, 0); (1, 2); (2, 1)] (3, 3))
         None.

(** ** torch on float tensors *)

Definition sum_list_R (l : list R) : R := foldr Rplus 0%R l.

(** The sum of [f 0], ..., [f (n-1)]. *)
Definition sum_n (n : nat) (f : nat -> R) : R := sum_list_R (f <$> seq 0 n).

(** The state of the torch random generator: the stream of Bernoulli draws
    ([true]: the entry is kept) and the position of the next one. *)
Record Generator := mkGenerator {
  bernoulli : nat -> bool;
  offset : nat
}.

(** [F.relu] *)
Definition relu (t : Tensor) : Tensor :=
  mkTensor (size0 t) (size1 t) (fun i j => Rmax 0 (item t i j)).

(** [F.dropout(t, p, training)]: in training mode one draw per entry, a kept
    entry is scaled by 1/(1-p); otherwise the input is returned and nothing
    is drawn. *)
Definition dropout (t : Tensor) (p : R) (training : bool) (g : Generator)
  : Tensor * Generator :=
  if training
  then (mkTensor (size0 t) (size1 t)
          (fun i j => if bernoulli g (offset g + i * size1 t + j)
                      then (item t i j / (1 - p))%R else 0%R),
        mkGenerator (bernoulli g) (offset g + size0 t * size1 t))
  else (t, g).

(** [nn.LogSoftmax()] built without [dim]: on a 2-D input the implicit
    dimension is 1, the log-softmax of each row. *)
Definition LogSoftmax (t : Tensor) : Tensor :=
  mkTensor (size0 t) (size1 t)
    (fun i j => (item t i j - ln (sum_n (size1 t) (fun k => exp (item t i k))))%R).

(** [t.argmax(dim=-1)]: per row the first position of the largest entry; a
    row without entries is a [RuntimeError]. *)
Fixpoint argmax_from (f : nat -> R) (best : nat) (k n : nat) : nat :=
  match n with
  | 0 => best
  | S n' => argmax_from f (if Rlt_dec (f best) (f k) then k else best) (S k) n'
  end.

Definition argmax (t : Tensor) : option (list nat) :=
  if decide (size1 t = 0) then None
  else Some ((fun i => argmax_from (item t i) 0 1 (size1 t - 1)) <$> seq 0 (size0 t)).

(** [F.nll_loss(input, target)]: the mean of [-input[i][target[i]]]; a
    target that is not a class is an [IndexError], a batch of another size
    than the targets a [ValueError]. *)
Definition nll_loss (input : Tensor) (target : list nat) : option R :=
  if decide (length target = size0 input ∧ Forall (fun c => c < size1 input) target)
  then Some (sum_n (size0 input) (fun i => - item input i (target !!! i))
             / INR (size0 input))%R
  else None.

(** ** torch_geometric.nn.GCNConv *)

(** The layer [GCNConv(in_channels, out_channels)]: the weight of its linear
    map (out by in) and its bias. *)
Record GCNConv := mkGCNConv {
  in_channels : nat;
  out_channels : nat;
  lin_weight : nat -> nat -> R;
  bias : nat -> R
}.

(** A fresh layer: weights as drawn by the initialiser, bias zero. *)
Definition GCNConv_new (i o : nat) (w : nat -> nat -> R) : GCNConv :=
  mkGCNConv i o w (fun _ => 0%R).

(** [self.lin(t)]: [t @ weight.T]; the feature dimension of [t] must be
    [in_channels]. *)
Definition lin (c : GCNConv) (t : Tensor) : option Tensor :=
  if decide (size1 t = in_channels c)
  then Some (mkTensor (size0 t) (out_channels c)
               (fun i o => sum_n (in_channels c)
                             (fun k => item t i k * lin_weight c o k)%R))
  else None.

(** A sparse matrix with values. *)
Record WeightedSparse := mkWeightedSparse {
  wentries : list (nat * nat * R);
  wsizes : nat * nat
}.

(** [fill_diag(adj_t, 1.)] after [fill_value(1.)]: the entries off the
    diagonal, each with value one, and a one at every diagonal position. *)
Definition fill_diag (a : SparseTensor) : list (nat * nat * R) :=
  ((fun e => (e, 1%R)) <$> filter (fun e => e.1 ≠ e.2) (entries a)) ++
  ((fun i => ((i, i), 1%R)) <$> seq 0 (min (sparse_sizes a).1 (sparse_sizes a).2)).

(** The entries of row [i]. *)
Definition row_entries (vs : list (nat * nat * R)) (i : nat) : list (nat * nat * R) :=
  filter (fun v => v.1.1 = i) vs.

(** [sum(adj_t, dim=1)] at row [i]. *)
Definition deg (vs : list (nat * nat * R)) (i : nat) : R :=
  sum_list_R ((fun v => v.2) <$> row_entries vs i).

(** [deg.pow_(-0.5)], infinite values replaced by zero. *)
Definition deg_inv_sqrt (vs : list (nat * nat * R)) (i : nat) : R :=
  if Req_dec_T (deg vs i) 0 then 0%R else (/ sqrt (deg vs i))%R.

(** [gcn_norm(adj_t)]: the adjacency must be square; self-loops are added and
    every entry is scaled by the degrees of its two ends. *)
Definition gcn_norm (a : SparseTensor) : option WeightedSparse :=
  if decide ((sparse_sizes a).1 = (sparse_sizes a).2)
  then let vs := fill_diag a in
       Some (mkWeightedSparse
               ((fun v => (v.1, (deg_inv_sqrt vs v.1.1 * v.2 * deg_inv_sqrt vs v.1.2)%R))
                  <$> vs)
               (sparse_sizes a))
  else None.

(** [matmul(adj_t, t)]: the kernel makes one output row for each row of the
    matrix and, for every stored entry, reads the row of [t] its column
    names.  It compares no sizes: the output has the rows of the matrix,
    whatever the rows of [t].  An entry whose row is outside the matrix or
    whose column is beyond the rows of [t] is a read or write out of memory,
    which has no result here. *)
Definition spmm (a : WeightedSparse) (t : Tensor) : option Tensor :=
  if decide (Forall (fun v => v.1.1 < (wsizes a).1 ∧ v.1.2 < size0 t) (wentries a))
  then Some (mkTensor (wsizes a).1 (size1 t)
               (fun i k => sum_list_R ((fun v => (v.2 * item t v.1.2 k)%R)
                                         <$> row_entries (wentries a) i)))
  else None.

(** [GCNConv.forward(t, adj_t)] *)
Definition GCNConv_forward (c : GCNConv) (t : Tensor) (a : SparseTensor)
  : option Tensor :=
  a' ← gcn_norm a;
  h ← lin c t;
  o ← spmm a' h;
  Some (mkTensor (size0 o) (size1 o) (fun i k => (item o i k + bias c k)%R)).

(** ** torch.nn.BatchNorm1d *)

Record BatchNorm1d := mkBatchNorm1d {
  bn_num_features : nat;
  eps : R;
  momentum : R;
  weight : nat -> R;
  bn_bias : nat -> R;
  running_mean : nat -> R;
  running_var : nat -> R;
  num_batches_tracked : nat;
  bn_training : bool
}.

(** [BatchNorm1d(n)]: [eps=1e-5], [momentum=0.1], and the parameters and
    statistics [reset_parameters] leaves. *)
Definition BatchNorm1d_new (n : nat) : BatchNorm1d :=
  mkBatchNorm1d n (1 / 100000)%R (1 / 10)%R
    (fun _ => 1%R) (fun _ => 0%R) (fun _ => 0%R) (fun _ => 1%R) 0 true.

(** The mean and the biased variance of column [j]. *)
Definition batch_mean (t : Tensor) (j : nat) : R :=
  (sum_n (size0 t) (fun i => item t i j) / INR (size0 t))%R.

Definition batch_var (t : Tensor) (j : nat) : R :=
  (sum_n (size0 t) (fun i => (item t i j - batch_mean t j) ^ 2) / INR (size0 t))%R.

Definition normalize (bn : BatchNorm1d) (mean var : nat -> R) (t : Tensor) : Tensor :=
  mkTensor (size0 t) (size1 t)
    (fun i j => ((item t i j - mean j) / sqrt (var j + eps bn) * weight bn j
                 + bn_bias bn j)%R).

Definition track (bn : BatchNorm1d) : BatchNorm1d :=
  mkBatchNorm1d (bn_num_features bn) (eps bn) (momentum bn) (weight bn) (bn_bias bn)
    (running_mean bn) (running_var bn) (S (num_batches_tracked bn)) (bn_training bn).

(** [BatchNorm1d.forward(t)].  In training mode the number of batches is
    counted, a batch of a single row is a [ValueError], the batch statistics
    normalise the input and move the running statistics (the variance
    unbiased).  In evaluation mode the running statistics normalise the input
    and the layer is unchanged.  A tensor without entries is returned as it
    is, scaled by [weight[0]] and shifted by [bias[0]], which must exist. *)
Definition BatchNorm1d_forward (bn : BatchNorm1d) (t : Tensor)
  : option (Tensor * BatchNorm1d) :=
  let bn := if bn_training bn then track bn else bn in
  if decide (bn_training bn = true ∧ size0 t = 1) then None
  else if decide (size0 t * size1 t = 0)
  then (if decide (bn_num_features bn = 0) then None else Some (t, bn))
  else if decide (size1 t = bn_num_features bn)
  then (if bn_training bn
        then let n := INR (size0 t) in
             let m := momentum bn in
             Some (normalize bn (batch_mean t) (batch_var t) t,
                   mkBatchNorm1d (bn_num_features bn) (eps bn) m
                     (weight bn) (bn_bias bn)
                     (fun j => ((1 - m) * running_mean bn j + m * batch_mean t j)%R)
                     (fun j => ((1 - m) * running_var bn j
                                + m * (batch_var t j * n / (n - 1)))%R)
                     (num_batches_tracked bn) (bn_training bn))
        else Some (normalize bn (running_mean bn) (running_var bn) t, bn))
  else None.

Definition BatchNorm1d_train (mode : bool) (bn : BatchNorm1d) : BatchNorm1d :=
  mkBatchNorm1d (bn_num_features bn) (eps bn) (momentum bn) (weight bn) (bn_bias bn)
    (running_mean bn) (running_var bn) (num_batches_tracked bn) mode.

(** ** The class [GCN] (lines 84-120 of the script) *)

Record GCN := mkGCN {
  gcnlayers : list GCNConv;
  last_gcn : GCNConv;
  bns : list BatchNorm1d;
  return_embeds : bool;
  training : bool
}.

(** [GCN(input_dim, hidden_dim, output_dim, return_embeds)]; [init l] holds
    the weights the initialiser draws for layer [l].  A new module is in
    training mode. *)
Definition GCN_new (input_dim hidden_dim output_dim : nat) (return_embeds : bool)
    (init : nat -> nat -> nat -> R) : GCN :=
  mkGCN [GCNConv_new input_dim hidden_dim (init 0);
         GCNConv_new hidden_dim hidden_dim (init 1);
         GCNConv_new hidden_dim hidden_dim (init 2);
         GCNConv_new hidden_dim hidden_dim (init 3)]
        (GCNConv_new hidden_dim output_dim (init 4))
        [BatchNorm1d_new hidden_dim; BatchNorm1d_new hidden_dim;
         BatchNorm1d_new hidden_dim; BatchNorm1d_new hidden_dim]
        return_embeds
        true.

(** [model.train(mode)] sets the flag of the module and of its children;
    [model.eval()] is [model.train(False)]. *)
Definition GCN_train (mode : bool) (self : GCN) : GCN :=
  mkGCN (gcnlayers self) (last_gcn self) (BatchNorm1d_train mode <$> bns self)
        (return_embeds self) mode.

Definition GCN_eval (self : GCN) : GCN := GCN_train false self.

(** The module built with another value of [return_embeds]. *)
Definition with_return_embeds (r : bool) (self : GCN) : GCN :=
  mkGCN (gcnlayers self) (last_gcn self) (bns self) r (training self).

(** [reset_parameters]: the layers of [gcnlayers] and of [bns] are
    initialised again; [last_gcn] is not touched. *)
Definition reset_parameters (self : GCN) (init : nat -> nat -> nat -> R) : GCN :=
  mkGCN (imap (fun l c => GCNConv_new (in_channels c) (out_channels c) (init l))
              (gcnlayers self))
        (last_gcn self)
        ((fun bn => BatchNorm1d_train (bn_training bn)
                      (BatchNorm1d_new (bn_num_features bn))) <$> bns self)
        (return_embeds self) (training self).

(** The body of the loop of [forward] for index [i]: convolution, batch
    normalisation, ReLU, dropout at rate 0.5. *)
Definition forward_body (adj_t : SparseTensor) (i : nat)
    (st : Tensor * GCN * Generator) : option (Tensor * GCN * Generator) :=
  let '(t, self, g) := st in
  conv ← gcnlayers self !! i;
  t ← GCNConv_forward conv t adj_t;
  bn ← bns self !! i;
  '(t, bn') ← BatchNorm1d_forward bn t;
  let self := mkGCN (gcnlayers self) (last_gcn self) (<[i:=bn']> (bns self))
                    (return_embeds self) (training self) in
  let t := relu t in
  let '(t, g) := dropout t (1 / 2)%R (training self) g in
  Some (t, self, g).

(** [for i in range: st = body(i, st)], stopping at the first exception. *)
Fixpoint for_each {S} (range : list nat) (body : nat -> S -> option S) (st : S)
  : option S :=
  match range with
  | [] => Some st
  | i :: range' => st' ← body i st; for_each range' body st'
  end.

(** [GCN.forward(x, adj_t)]: the output, the module after the call (batch
    normalisation moves its statistics in training mode) and the generator
    after the call. *)
Definition forward (self : GCN) (g : Generator) (t : Tensor) (adj_t : SparseTensor)
  : option (Tensor * GCN * Generator) :=
  '(t, self, g) ← for_each (seq 0 (length (gcnlayers self))) (forward_body adj_t)
                           (t, self, g);
  t ← GCNConv_forward (last_gcn self) t adj_t;
  let t := if negb (return_embeds self) then LogSoftmax t else t in
  Some (t, self, g).

(** *** The architecture as the specification words it *)

(** One hidden stage: graph convolution, then batch normalisation, then
    ReLU, then dropout at rate 0.5, which is active in training mode only. *)
Definition hidden_stage (conv : GCNConv) (bn : BatchNorm1d) (training : bool)
    (adj_t : SparseTensor) (t : Tensor) (g : Generator)
  : option (Tensor * BatchNorm1d * Generator) :=
  t ← GCNConv_forward conv t adj_t;
  '(t, bn') ← BatchNorm1d_forward bn t;
  let t := relu t in
  let t_g := if training then dropout t (1 / 2)%R true g else (t, g) in
  Some (t_g.1, bn', t_g.2).

(** Four hidden stages in sequence, then the output convolution, then the
    optional log-softmax. *)
Definition forward_spec (self : GCN) (g : Generator) (t : Tensor) (adj_t : SparseTensor)
  : option (Tensor * GCN * Generator) :=
  match gcnlayers self, bns self with
  | [c1; c2; c3; c4], [b1; b2; b3; b4] =>
      '(t, b1', g) ← hidden_stage c1 b1 (training self) adj_t t g;
      '(t, b2', g) ← hidden_stage c2 b2 (training self) adj_t t g;
      '(t, b3', g) ← hidden_stage c3 b3 (training self) adj_t t g;
      '(t, b4', g) ← hidden_stage c4 b4 (training self) adj_t t g;
      t ← GCNConv_forward (last_gcn self) t adj_t;
      Some (if return_embeds self then t else LogSoftmax t,
            mkGCN (gcnlayers self) (last_gcn self) [b1'; b2'; b3'; b4']
                  (return_embeds self) (training self),
            g)
  | _, _ => None
  end.

(** What the specification says a hidden stage computes, written out entry
    by entry: the convolution, then the batch normalisation; then every
    entry is replaced by its maximum with zero (ReLU); then, in training
    mode only, every entry is zeroed or, when its draw keeps it, scaled by
    1/(1-0.5) = 2 (dropout at rate 0.5), one draw per entry, row by row.  In
    evaluation mode nothing is drawn. *)
Definition stage_as_specified (conv : GCNConv) (bn : BatchNorm1d) (training : bool)
    (adj_t : SparseTensor) (t : Tensor) (g : Generator)
    (o : Tensor) (bn' : BatchNorm1d) (g' : Generator) : Prop :=
  ∃ u v,
    GCNConv_forward conv t adj_t = Some u ∧
    BatchNorm1d_forward bn u = Some (v, bn') ∧
    size0 o = size0 v ∧ size1 o = size1 v ∧
    (∀ i j, i < size0 v → j < size1 v →
       item o i j =
         if training
         then (if bernoulli g (offset g + i * size1 v + j)
               then (2 * Rmax 0 (item v i j))%R else 0%R)
         else Rmax 0 (item v i j)) ∧
    bernoulli g' = bernoulli g ∧
    offset g' = if training then offset g + size0 v * size1 v else offset g.

(** *** Shapes *)

Definition conv_dims (c : GCNConv) : nat * nat := (in_channels c, out_channels c).

(** The module has the layers of [GCN(F, H, C)], and the mode of its batch
    normalisations is its own mode, as [train] and [eval] leave it. *)
Definition GCN_dims (F H C : nat) (self : GCN) : Prop :=
  conv_dims <$> gcnlayers self = [(F, H); (H, H); (H, H); (H, H)] ∧
  conv_dims (last_gcn self) = (H, C) ∧
  bn_num_features <$> bns self = [H; H; H; H] ∧
  bn_training <$> bns self = replicate 4 (training self).

(** An adjacency over [N] nodes. *)
Definition adj_over (N : nat) (a : SparseTensor) : Prop :=
  sparse_sizes a = (N, N) ∧ edges_within N (entries a).

Definition has_shape (n m : nat) (t : Tensor) : Prop := size0 t = n ∧ size1 t = m.

(** The sum of the exponentials of row [i]. *)
Definition row_exp_sum (t : Tensor) (i : nat) : R :=
  sum_n (size1 t) (fun j => exp (item t i j)).

(** A module [GCN(2, 3, 2)] whose weights are all zero, and a module
    [GCN(1, 1, 1)], used as example inputs. *)
Definition zero_init : nat -> nat -> nat -> R := fun _ _ _ => 0%R.

Definition example_generator : Generator := mkGenerator (fun n => Nat.even n) 0.

(** The module and all its batch normalisations are in evaluation mode. *)
Definition eval_mode (self : GCN) : Prop :=
  training self = false ∧ Forall (fun b => bn_training b = false) (bns self).

(** ** ogb.nodeproppred.Evaluator *)

(** The number of positions where the two vectors agree. *)
Definition correct (y_true y_pred : list nat) : nat :=
  length (filter (fun p => p.1 = p.2) (zip y_true y_pred)).

(** [evaluator.eval({'y_true': .., 'y_pred': ..})['acc']]: the fraction of
    correct predictions.  Vectors of different lengths are a
    [RuntimeError], empty ones a [ZeroDivisionError]. *)
Definition Evaluator_eval (y_true y_pred : list nat) : option R :=
  if decide (length y_true = length y_pred ∧ y_true ≠ [])
  then Some (INR (correct y_true y_pred) / INR (length y_true))%R
  else None.

(** ** The helpers [train] and [test] and the training loop
       (lines 126-215 of the script) *)

(** [args]; the device is the one found at line 40. *)
Record Args := mkArgs {
  device : string;
  hidden_dim : nat;
  lr : R;
  epochs : nat
}.

Definition args (device : string) : Args := mkArgs device 256 (1 / 100)%R 200.

(** One line of the progress report. *)
Record Line := mkLine {
  line_epoch : nat;
  line_loss : R;
  line_train : R;
  line_valid : R;
  line_test : R
}.

(** The accuracy of the predictions on the split named [key]. *)
Definition split_acc (data : Data) (split_idx : gmap string (list nat))
    (y_pred : list nat) (key : string) : option R :=
  idx ← split_idx !! key;
  y_true ← gather (y data) idx;
  y_pred ← gather y_pred idx;
  Evaluator_eval y_true y_pred.

(** [test(model, data, split_idx, evaluator, save_model_results)]: the
    three accuracies, the module (now in evaluation mode) and the generator.
    With [save_model_results] the function reaches [pd.DataFrame], and the
    script never imports [pd]: a [NameError]. *)
Definition test (model : GCN) (g : Generator) (data : Data)
    (split_idx : gmap string (list nat)) (save_model_results : bool)
  : option (R * R * R * GCN * Generator) :=
  let model := GCN_eval model in
  '(out, model, g) ← forward model g (x data) (adj_t data);
  y_pred ← argmax out;
  train_acc ← split_acc data split_idx y_pred "train";
  valid_acc ← split_acc data split_idx y_pred "valid";
  test_acc ← split_acc data split_idx y_pred "test";
  if save_model_results then None
  else Some (train_acc, valid_acc, test_acc, model, g).

(** [copy.deepcopy] of the object at address [a]: a new object with the same
    contents, at a fresh address. *)
Definition deepcopy (heap : list GCN) (a : nat) : option (list GCN * nat) :=
  m ← heap !! a;
  Some (heap ++ [m], length heap).

Section Training.

(** The optimiser is kept abstract: its state, [Adam(parameters, lr)], and
    what [loss.backward(); optimizer.step()] does.  The step is given the
    state of the optimiser, the module and the generator as they were
    before the forward pass, the graph, the positions the loss is taken on
    and the module after the forward pass; it returns the new state of the
    optimiser and the module with its parameters updated. *)
Context {Optimizer : Type}.
Variable Adam : GCN -> R -> Optimizer.
Variable backward_step :
  Optimizer -> GCN -> Generator -> Data -> list nat -> GCN -> Optimizer * GCN.

(** [train(model, data, train_idx, optimizer, loss_fn)]: the loss, and the
    module, optimiser and generator after the step. *)
Definition train (model : GCN) (opt : Optimizer) (g : Generator) (data : Data)
    (train_idx : list nat) (loss_fn : Tensor -> list nat -> option R)
  : option (R * GCN * Optimizer * Generator) :=
  let model := GCN_train true model in
  '(out, model', g') ← forward model g (x data) (adj_t data);
  out_train ← index_rows out train_idx;
  y_train ← gather (y data) train_idx;
  loss ← loss_fn out_train y_train;
  let '(opt', model'') := backward_step opt model g data train_idx model' in
  Some (loss, model'', opt', g').

(** The variables of the script while the loop runs.  Modules are objects:
    [heap] holds them by address, and [model] and [best_model] are
    addresses. *)
Record Script := mkScript {
  heap : list GCN;
  model : nat;
  optimizer : Optimizer;
  best_model : option nat;
  best_valid_acc : R;
  generator : Generator;
  stdout : list Line
}.

(** Lines 184-197: the module is built and reset, the optimiser is built,
    [best_model = None], [best_valid_acc = 0]. *)
Definition start (a : Args) (data : Data) (num_classes : nat)
    (init init' : nat -> nat -> nat -> R) (g : Generator) : Script :=
  let m := reset_parameters
             (GCN_new (num_features data) (hidden_dim a) num_classes false init)
             init' in
  mkScript [m] 0 (Adam m (lr a)) None 0%R g [].

Variable data : Data.
Variable split_idx : gmap string (list nat).
Variable train_idx : list nat.

(** The body of [for epoch in range(1, 1 + args["epochs"])]. *)
Definition loop_body (epoch : nat) (st : Script) : option Script :=
  m ← heap st !! model st;
  let m := GCN_train true m in
  '(out, m1, g1) ← forward m (generator st) (x data) (adj_t data);
  out_train ← index_rows out train_idx;
  y_train ← gather (y data) train_idx;
  loss ← nll_loss out_train y_train;
  let '(opt, m2) := backward_step (optimizer st) m (generator st) data train_idx m1 in
  '(train_acc, valid_acc, test_acc, m3, g3) ← test m2 g1 data split_idx false;
  let heap1 := <[model st:=m3]> (heap st) in
  let out_line := mkLine epoch loss train_acc valid_acc test_acc in
  if Rlt_dec (best_valid_acc st) valid_acc
  then '(heap2, copy) ← deepcopy heap1 (model st);
       Some (mkScript heap2 (model st) opt (Some copy) valid_acc g3
                      (stdout st ++ [out_line]))
  else Some (mkScript heap1 (model st) opt (best_model st) (best_valid_acc st) g3
                      (stdout st ++ [out_line])).

(** The loop, for a budget of [n] epochs. *)
Definition training_loop (n : nat) (st : Script) : option Script :=
  for_each (seq 1 n) loop_body st.

End Training.

(** *** When the loop can run *)

(** A split that the evaluator accepts: not empty, of node positions. *)
Definition split_ok (N : nat) (idx : list nat) : Prop :=
  idx ≠ [] ∧ Forall (fun i => i < N) idx.

(** The graph, the splits and the dimensions fit: an N-by-F feature matrix
    with N other than 1, an adjacency over N nodes, one label below C per
    node, at least one class and one hidden feature, three acceptable
    splits, and [train_idx] the split named train. *)
Definition ready (F H C N : nat) (data : Data) (split_idx : gmap string (list nat))
    (train_idx : list nat) : Prop :=
  0 < H ∧ 0 < C ∧ N ≠ 1 ∧
  has_shape N F (x data) ∧ adj_over N (adj_t data) ∧
  length (y data) = N ∧ Forall (fun c => c < C) (y data) ∧
  split_idx !! "train" = Some train_idx ∧
  Forall (fun key => ∃ idx, split_idx !! key = Some idx ∧ split_ok N idx)
         ["train"; "valid"; "test"].

(** The optimiser step updates parameters in place: the layers keep their
    dimensions. *)
Definition keeps_dims {Optimizer : Type} (F H C : nat)
    (backward_step : Optimizer -> GCN -> Generator -> Data -> list nat -> GCN
                     -> Optimizer * GCN) : Prop :=
  ∀ opt m g d idx m1,
    GCN_dims F H C m1 → GCN_dims F H C (backward_step opt m g d idx m1).2.

(** The variable [model] names a module with the layers of [GCN(F, H, C)]. *)
Definition model_dims {Optimizer : Type} (F H C : nat) (st : @Script Optimizer) : Prop :=
  ∃ m, heap st !! model st = Some m ∧ GCN_dims F H C m.

(** Example inputs: the splits of the three-node graph, an optimiser that
    leaves the parameters as they are, and the variables of the script
    before the loop, with a module [GCN(2, 3, 2)] whose weights are zero. *)
Definition example_splits : gmap string (list nat) :=
  dict_of_zip [[0]; [1]; [2]] ["train"; "valid"; "test"].

(** The same three nodes with node 1 for training and node 0 for
    validation. *)
Definition swapped_splits : gmap string (list nat) :=
  dict_of_zip [[1]; [0]; [2]] ["train"; "valid"; "test"].

Definition no_step (opt : unit) (m : GCN) (g : Generator) (d : Data)
    (idx : list nat) (m1 : GCN) : unit * GCN := (opt, m1).

Definition example_script : @Script unit :=
  mkScript [GCN_new 2 3 2 false zero_init] 0 tt None 0%R example_generator [].

(** The module returns log-probabilities and its output layer has zero
    weights and zero bias. *)
Definition zero_out (m : GCN) : Prop :=
  return_embeds m = false ∧
  (∀ j k, lin_weight (last_gcn m) j k = 0%R) ∧
  (∀ k, bias (last_gcn m) k = 0%R).

(** * Properties *)

(** ** The split generator *)

Lemma swap_Permutation l i j : swap l i j ≡ₚ l.
Proof.
  unfold swap.
  destruct (l !! i) as [a|] eqn:Hi; [|done].
  destruct (l !! j) as [b|] eqn:Hj; [|done].
  by apply Permutation_insert_swap.
Qed.

Lemma shuffle_loop_Permutation i rs l : (shuffle_loop i rs l).1 ≡ₚ l.
Proof.
  revert rs l. induction i as [|i IH]; intros rs l; simpl; [done|].
  rewrite IH. apply swap_Permutation.
Qed.

Lemma indices_Permutation K rs : (indices K rs).1 ≡ₚ seq 0 K.
Proof. apply shuffle_loop_Permutation. Qed.

Lemma indices_length K rs : length (indices K rs).1 = K.
Proof. by rewrite indices_Permutation, length_seq. Qed.

Lemma indices_NoDup K rs : NoDup (indices K rs).1.
Proof. rewrite indices_Permutation. apply NoDup_seq. Qed.

(** Quotients and remainders are opaque to [lia]: name the ones of the split
    sizes and give their defining equations. *)
Ltac split_sizes_arith K :=
  unfold split_sizes, sum_list_with, Datatypes.id;
  pose proof (Nat.div_mod_eq (K * 80) 100);
  pose proof (Nat.mod_upper_bound (K * 80) 100);
  pose proof (Nat.div_mod_eq (K * 5) 100);
  pose proof (Nat.mod_upper_bound (K * 5) 100);
  pose proof (Nat.div_mod_eq (K * 15) 100);
  pose proof (Nat.mod_upper_bound (K * 15) 100);
  pose proof (Nat.div_mod_eq K 20);
  pose proof (Nat.mod_upper_bound K 20);
  lia.

Lemma split_sizes_sum_le K : sum_list (split_sizes K) ≤ K.
Proof. split_sizes_arith K. Qed.

Lemma split_sizes_exact K : sum_list (split_sizes K) = K ↔ K mod 20 = 0.
Proof. split_sizes_arith K. Qed.

Lemma split_sizes_surplus K : sum_list (split_sizes K) < K ↔ K mod 20 ≠ 0.
Proof. split_sizes_arith K. Qed.

Lemma elem_of_drop_inv {A} (l : list A) n x : x ∈ drop n l → x ∈ l.
Proof.
  intros (i & Hi)%list_elem_of_lookup_1. rewrite lookup_drop in Hi.
  by eapply list_elem_of_lookup_2.
Qed.

Lemma elem_of_take_inv {A} (l : list A) n x : x ∈ take n l → x ∈ l.
Proof.
  intros (i & Hi & _)%elem_of_take. by eapply list_elem_of_lookup_2.
Qed.

Lemma take_drop_disjoint {A} (l : list A) a :
  NoDup l → take a l ## drop a l.
Proof.
  intros Hnd. rewrite <-(take_drop a l) in Hnd.
  apply NoDup_app in Hnd as (_ & Hdis & _).
  intros x Hx Hy. by apply (Hdis x Hx).
Qed.

Lemma drop_NoDup {A} (l : list A) a : NoDup l → NoDup (drop a l).
Proof.
  intros Hnd. rewrite <-(take_drop a l) in Hnd.
  by apply NoDup_app in Hnd as (_ & _ & ?).
Qed.

(** The three chunks of a list without duplicates are pairwise disjoint. *)
Lemma chunks_three_disjoint {A} (l : list A) a b c :
  NoDup l →
  let t1 := take a l in
  let t2 := take b (drop a l) in
  let t3 := take c (drop b (drop a l)) in
  t1 ## t2 ∧ t1 ## t3 ∧ t2 ## t3.
Proof.
  intros Hnd; simpl.
  pose proof (take_drop_disjoint l a Hnd) as H1.
  pose proof (take_drop_disjoint (drop a l) b (drop_NoDup l a Hnd)) as H2.
  split_and!.
  - intros x Hx Hy. apply (H1 x Hx). by eapply elem_of_take_inv.
  - intros x Hx Hy. apply (H1 x Hx).
    eapply elem_of_drop_inv, elem_of_take_inv, Hy.
  - intros x Hx Hy. apply (H2 x Hx). by eapply elem_of_take_inv.
Qed.

Lemma dict_of_zip_three t1 t2 t3 :
  let d := dict_of_zip [t1; t2; t3] ["train"; "valid"; "test"] in
  d !! "train" = Some t1 ∧ d !! "valid" = Some t2 ∧ d !! "test" = Some t3.
Proof. unfold dict_of_zip; simpl. by simplify_map_eq. Qed.

Lemma split_idx_surplus K rs :
  sum_list (split_sizes K) ≠ K → split_idx K rs = None.
Proof.
  intros Hne. unfold split_idx, torch_split.
  rewrite indices_length. by rewrite decide_False.
Qed.

Lemma split_idx_exact K rs :
  sum_list (split_sizes K) = K →
  let l := (indices K rs).1 in
  let a := K * 80 / 100 in
  let b := K * 5 / 100 in
  let c := K * 15 / 100 in
  split_idx K rs =
    Some (dict_of_zip [take a l; take b (drop a l); take c (drop b (drop a l))]
                      ["train"; "valid"; "test"]).
Proof.
  intros Hsum; simpl. unfold split_idx, torch_split.
  rewrite indices_length. by rewrite decide_True.
Qed.

(** C4, as stated, fails: for one node the three sizes are 0, 0 and 0, they
    do not sum to 1, [torch.split] rejects them and no index set is
    produced. *)
Lemma split_idx_one_node_rejected :
  split_sizes 1 = [0; 0; 0] ∧ split_idx 1 (mkRandomState (fun _ => 0) 0) = None.
Proof. split; reflexivity. Qed.

(** C4 (amended). For every node count K the sizes floor(K*0.80),
    floor(K*0.05) and floor(K*0.15) sum to at most K; whenever they sum to
    exactly K, the split generator produces train, valid and test index sets
    of these sizes, pairwise disjoint, all of whose members are node positions
    below K. *)
Theorem split_idx_sizes_disjoint K rs :
  sum_list (split_sizes K) ≤ K ∧
  (sum_list (split_sizes K) = K →
   ∃ d tr va te,
     split_idx K rs = Some d ∧
     d !! "train" = Some tr ∧ d !! "valid" = Some va ∧ d !! "test" = Some te ∧
     length tr = K * 80 / 100 ∧
     length va = K * 5 / 100 ∧
     length te = K * 15 / 100 ∧
     tr ## va ∧ tr ## te ∧ va ## te ∧
     (∀ i, i ∈ tr ++ va ++ te → i < K)).
Proof.
  split; [apply split_sizes_sum_le|]. intros Hsum.
  pose proof (split_idx_exact K rs Hsum) as Hd; simpl in Hd.
  pose proof (indices_length K rs) as Hlen.
  pose proof (indices_NoDup K rs) as Hnd.
  set (l := (indices K rs).1) in *.
  set (a := K * 80 / 100) in *. set (b := K * 5 / 100) in *.
  set (c := K * 15 / 100) in *.
  assert (a + b + c = K) as Habc.
  { revert Hsum. unfold split_sizes, sum_list_with, Datatypes.id. lia. }
  destruct (dict_of_zip_three (take a l) (take b (drop a l))
              (take c (drop b (drop a l)))) as (Htr & Hva & Hte).
  destruct (chunks_three_disjoint l a b c Hnd) as (D1 & D2 & D3).
  eexists _, _, _, _. split_and!; try done.
  - rewrite length_take. lia.
  - rewrite length_take, length_drop. lia.
  - rewrite length_take, !length_drop. lia.
  - intros i Hi.
    assert (i ∈ l) as Hil.
    { rewrite !elem_of_app in Hi. destruct Hi as [Hi|[Hi|Hi]].
      - by eapply elem_of_take_inv.
      - eapply elem_of_drop_inv, elem_of_take_inv, Hi.
      - eapply elem_of_drop_inv, elem_of_drop_inv, elem_of_take_inv, Hi. }
    unfold l in Hil. rewrite indices_Permutation in Hil.
    apply elem_of_seq in Hil. lia.
Qed.

(** The script's proportions on twenty nodes: 16, 1 and 3 indices. *)
Lemma split_idx_sizes_disjoint_witness :
  sum_list (split_sizes 20) = 20 ∧
  ∃ d tr va te,
    split_idx 20 (mkRandomState (fun n => 7 * n + 3) 0) = Some d ∧
    d !! "train" = Some tr ∧ d !! "valid" = Some va ∧ d !! "test" = Some te ∧
    length tr = 20 * 80 / 100 ∧
    length va = 20 * 5 / 100 ∧
    length te = 20 * 15 / 100 ∧
    tr ## va ∧ tr ## te ∧ va ## te ∧
    (∀ i, i ∈ tr ++ va ++ te → i < 20).
Proof.
  split; [reflexivity|].
  apply (proj2 (split_idx_sizes_disjoint 20 _)). reflexivity.
Defined.

(** C5, as stated, fails: for ten nodes the sizes 8, 0 and 1 sum to 9, and
    the split generator raises instead of leaving one index unassigned. *)
Lemma split_idx_ten_nodes_rejected :
  split_sizes 10 = [8; 0; 1] ∧
  sum_list (split_sizes 10) < 10 ∧
  split_idx 10 (mkRandomState (fun n => n) 0) = None.
Proof. split_and!; [reflexivity| |reflexivity]. vm_compute. lia. Qed.

(** C5 (amended). For every node count K whose three sizes sum to fewer than
    K, [torch.split] rejects the sizes and the split generator raises: no
    split is produced and no index is assigned. *)
Theorem split_idx_surplus_raises K rs :
  sum_list (split_sizes K) < K → split_idx K rs = None.
Proof. intros Hlt. apply split_idx_surplus. lia. Qed.

Lemma split_idx_surplus_raises_witness :
  sum_list (split_sizes 7) < 7 ∧
  split_idx 7 (mkRandomState (fun n => 2 * n) 0) = None.
Proof.
  assert (sum_list (split_sizes 7) < 7) as H by (vm_compute; lia).
  split; [exact H|]. exact (split_idx_surplus_raises 7 _ H).
Defined.

(** When the sizes sum to K, the three index sets together hold every node
    position below K exactly once, and the dictionary has no other key. *)
Theorem split_idx_covers K rs :
  sum_list (split_sizes K) = K →
  ∃ d tr va te,
    split_idx K rs = Some d ∧
    d !! "train" = Some tr ∧ d !! "valid" = Some va ∧ d !! "test" = Some te ∧
    tr ++ va ++ te ≡ₚ seq 0 K ∧
    (∀ i, i < K → i ∈ tr ∨ i ∈ va ∨ i ∈ te) ∧
    (∀ key, key ∉ ["train"; "valid"; "test"] → d !! key = None).
Proof.
  intros Hsum. pose proof (split_idx_exact K rs Hsum) as Hd; simpl in Hd.
  pose proof (indices_length K rs) as Hlen.
  set (l := (indices K rs).1) in *.
  set (a := K * 80 / 100) in *. set (b := K * 5 / 100) in *.
  set (c := K * 15 / 100) in *.
  assert (a + b + c = K) as Habc.
  { revert Hsum. unfold split_sizes, sum_list_with, Datatypes.id. lia. }
  destruct (dict_of_zip_three (take a l) (take b (drop a l))
              (take c (drop b (drop a l)))) as (Htr & Hva & Hte).
  assert (take a l ++ take b (drop a l) ++ take c (drop b (drop a l)) = l) as Hall.
  { rewrite (take_ge (drop b (drop a l))) by (rewrite !length_drop; lia).
    by rewrite !take_drop. }
  assert (take a l ++ take b (drop a l) ++ take c (drop b (drop a l)) ≡ₚ seq 0 K)
    as Hperm by (rewrite Hall; apply indices_Permutation).
  eexists _, _, _, _. split_and!; try done.
  - intros i Hi.
    assert (i ∈ take a l ++ take b (drop a l) ++ take c (drop b (drop a l))) as Hin.
    { rewrite Hperm. apply elem_of_seq. lia. }
    by rewrite !elem_of_app in Hin.
  - intros key Hkey. unfold dict_of_zip; cbn.
    rewrite !lookup_insert_ne; [done|..];
      intros <-; apply Hkey; repeat constructor.
Qed.

Lemma split_idx_covers_witness :
  sum_list (split_sizes 40) = 40 ∧
  ∃ d tr va te,
    split_idx 40 (mkRandomState (fun n => 3 * n + 1) 0) = Some d ∧
    d !! "train" = Some tr ∧ d !! "valid" = Some va ∧ d !! "test" = Some te ∧
    tr ++ va ++ te ≡ₚ seq 0 40 ∧
    (∀ i, i < 40 → i ∈ tr ∨ i ∈ va ∨ i ∈ te) ∧
    (∀ key, key ∉ ["train"; "valid"; "test"] → d !! key = None).
Proof.
  assert (sum_list (split_sizes 40) = 40) as Hsum by reflexivity.
  split; [exact Hsum|]. exact (split_idx_covers 40 _ Hsum).
Defined.


(** ** Sub-graph extraction *)

Lemma gather_fmap {A} (v : list A) (f : nat → A) (idx : list nat) :
  Forall (fun i => v !! i = Some (f i)) idx → gather v idx = Some (f <$> idx).
Proof.
  unfold gather. induction 1 as [|i idx Hi _ IH]; [done|].
  cbn. rewrite Hi; cbn. by rewrite IH.
Qed.

Lemma gather_arange {A} (v : list A) n :
  n ≤ length v → gather v (arange n) = Some (take n v).
Proof.
  unfold gather, arange. intros Hn. apply mapM_Some.
  apply Forall2_same_length_lookup. split.
  { rewrite length_seq, length_take. lia. }
  intros i j a Hj Ha. apply lookup_seq in Hj as [-> ?].
  rewrite lookup_take_lt in Ha by lia. done.
Qed.

Lemma index_to_mask_arange K n :
  K ≤ n → ∃ m, index_to_mask (arange K) n = Some m ∧
               ∀ u, u < n → m !! u = Some (bool_decide (u < K)).
Proof.
  intros HK. unfold index_to_mask, arange.
  rewrite decide_True.
  2:{ apply Forall_forall. intros s Hs%elem_of_seq. lia. }
  eexists; split; [done|]. clear HK.
  induction K as [|K IH]; intros u Hu.
  - simpl. by rewrite lookup_replicate_2.
  - rewrite seq_S, foldl_app; simpl.
    destruct (decide (u = K)) as [->|Hne].
    + rewrite list_lookup_insert_eq.
      * by rewrite bool_decide_true by lia.
      * clear IH. generalize (seq 0 K). intros l.
        induction l as [|a l IHl] using rev_ind; simpl.
        -- by rewrite length_replicate.
        -- rewrite foldl_app; simpl. by rewrite length_insert.
    + rewrite list_lookup_insert_ne by done. rewrite IH by done.
      apply f_equal, bool_decide_ext. lia.
Qed.

Lemma foldl_insert_length {A B} (f : B → nat * A) (l : list B) (v : list A) :
  length (foldl (fun v b => <[(f b).1:=(f b).2]> v) v l) = length v.
Proof.
  revert v. induction l as [|b l IH]; intros v; simpl; [done|].
  by rewrite IH, length_insert.
Qed.

(** Renaming the nodes of [arange K] to their positions changes nothing. *)
Lemma node_idx_arange K n u :
  K ≤ n → u < K →
  foldl (fun v sk => <[sk.1:=sk.2]> v) (replicate n 0)
        (zip (arange K) (arange (length (arange K)))) !! u = Some u.
Proof.
  unfold arange. rewrite length_seq. intros HK Hu.
  induction K as [|K IH]; [lia|].
  rewrite seq_S, zip_with_app by done. rewrite foldl_app; simpl.
  destruct (decide (u = K)) as [->|Hne].
  - apply list_lookup_insert_eq.
    rewrite (foldl_insert_length (fun sk => sk)), length_replicate. lia.
  - rewrite list_lookup_insert_ne by done. apply IH; lia.
Qed.

Lemma masked_select_filter {A} (P : A → Prop) `{!∀ a, Decision (P a)} (l : list A) :
  masked_select l ((fun a => bool_decide (P a)) <$> l) = filter P l.
Proof.
  unfold masked_select. induction l as [|a l IH]; [done|].
  cbn [fmap list_fmap zip zip_with]. rewrite filter_cons; cbn [snd].
  rewrite (filter_cons P). destruct (decide (P a)) as [Ha|Ha].
  - rewrite bool_decide_true by done. rewrite decide_True by done.
    cbn. by rewrite <-IH.
  - rewrite bool_decide_false by done. rewrite decide_False by done. apply IH.
Qed.

Lemma zip_fst_snd_id {A B} (l : list (A * B)) : zip l.*1 l.*2 = l.
Proof. induction l as [|[a b] l IH]; [done|]. cbn. by rewrite IH. Qed.

Lemma subgraph_arange K n ei :
  K ≤ n → edges_within n ei →
  ∃ mask, subgraph (arange K) ei n =
            Some (filter (fun e => e.1 < K ∧ e.2 < K) ei, mask).
Proof.
  intros HK Hei. unfold subgraph.
  destruct (index_to_mask_arange K n HK) as (m & -> & Hm); cbn.
  rewrite (gather_fmap m (fun u => bool_decide (u < K))).
  2:{ apply Forall_fmap. eapply Forall_impl; [exact Hei|].
      intros e [? ?]; cbn. by apply Hm. }
  cbn.
  rewrite (gather_fmap m (fun u => bool_decide (u < K))).
  2:{ apply Forall_fmap. eapply Forall_impl; [exact Hei|].
      intros e [? ?]; cbn. by apply Hm. }
  cbn.
  assert (zip_with andb ((fun u => bool_decide (u < K)) <$> ei.*1)
                        ((fun u => bool_decide (u < K)) <$> ei.*2)
          = (fun e => bool_decide (e.1 < K ∧ e.2 < K)) <$> ei) as ->.
  { clear. induction ei as [|[u v] ei IH]; [done|]. cbn. rewrite IH. f_equal.
    rewrite bool_decide_and. done. }
  rewrite masked_select_filter.
  set (kept := filter (fun e => e.1 < K ∧ e.2 < K) ei).
  assert (Forall (fun e => e.1 < K ∧ e.2 < K) kept) as Hkept.
  { apply Forall_forall. intros e He. by apply list_elem_of_filter in He as [? _]. }
  rewrite (gather_fmap _ (fun u => u)).
  2:{ apply Forall_fmap. eapply Forall_impl; [exact Hkept|].
      intros e [? ?]; cbn. by apply node_idx_arange. }
  cbn.
  rewrite (gather_fmap _ (fun u => u)).
  2:{ apply Forall_fmap. eapply Forall_impl; [exact Hkept|].
      intros e [? ?]; cbn. by apply node_idx_arange. }
  cbn. rewrite !list_fmap_id, zip_fst_snd_id. by eexists.
Qed.

Lemma index_rows_arange t K :
  K ≤ size0 t →
  index_rows t (arange K) =
    Some (mkTensor (length (arange K)) (size1 t)
                   (fun i j => item t (arange K !!! i) j)).
Proof.
  intros HK. unfold index_rows. rewrite decide_True; [done|].
  apply Forall_forall. intros i Hi%elem_of_seq. lia.
Qed.

Lemma infer_size_le K (idx : list nat) :
  Forall (fun u => u < K) idx → infer_size idx ≤ K.
Proof.
  intros Hall. destruct idx as [|u idx]; [simpl; lia|].
  unfold infer_size.
  assert (0 < K) as HK by (inversion Hall; lia).
  assert (max_list (u :: idx) < K); [|lia].
  induction Hall as [|a l Ha _ IH]; simpl; lia.
Qed.

(** What the script leaves in [sub_graph]. *)
Lemma sub_graph_spec data K :
  wf_Data data → K ≤ num_nodes data →
  let kept := filter (fun e => e.1 < K ∧ e.2 < K) (entries (adj_t data)) in
  sub_graph data K =
    Some (mkData (mkTensor (length (arange K)) (size1 (x data))
                           (fun i j => item (x data) (arange K !!! i) j))
                 (take K (y data))
                 (SparseTensor_new kept.*1 kept.*2 None)
                 (Some kept)).
Proof.
  intros [Hei Hy] HK kept.
  unfold sub_graph, Data_subgraph, storage_row, storage_col.
  unfold num_nodes in *.
  cbn [x y adj_t edge_index]. rewrite zip_fst_snd_id.
  destruct (subgraph_arange K _ _ HK Hei) as (mask & ->); cbn.
  rewrite index_rows_arange by done; cbn.
  rewrite gather_arange by lia; cbn. done.
Qed.

(** Decides [wf_Data] on a graph that is written out. *)
Ltac wf_Data_explicit :=
  split; [|reflexivity];
  unfold edges_within; cbn; repeat (constructor; [cbn; lia|]); constructor.

(** C2. For every node budget K not exceeding the node count of the full
    graph, sub-graph extraction over the node positions [0, K) succeeds and
    yields a graph with exactly K nodes, whose feature matrix is K by the
    original feature dimension and holds the first K rows of the original,
    and whose labels are the labels of these K nodes. *)
Theorem sub_graph_nodes_features data K :
  wf_Data data → K ≤ num_nodes data →
  ∃ g, sub_graph data K = Some g ∧
       num_nodes g = K ∧
       size0 (x g) = K ∧ size1 (x g) = num_features data ∧
       (∀ i j, i < K → item (x g) i j = item (x data) i j) ∧
       y g = take K (y data) ∧ length (y g) = K.
Proof.
  intros Hwf HK. pose proof (sub_graph_spec data K Hwf HK) as Hg.
  destruct Hwf as [_ Hy]. cbn zeta in Hg.
  eexists; split; [exact Hg|]. unfold num_nodes, num_features, arange; cbn.
  rewrite length_seq, length_take. split_and!; try done; [|lia].
  intros i j Hi. by rewrite lookup_total_seq_lt.
Qed.

Lemma sub_graph_nodes_features_witness :
  wf_Data example_graph ∧ 2 ≤ num_nodes example_graph ∧
  ∃ g, sub_graph example_graph 2 = Some g ∧
       num_nodes g = 2 ∧
       size0 (x g) = 2 ∧ size1 (x g) = num_features example_graph ∧
       (∀ i j, i < 2 → item (x g) i j = item (x example_graph) i j) ∧
       y g = take 2 (y example_graph) ∧ length (y g) = 2.
Proof.
  assert (wf_Data example_graph) as Hwf by wf_Data_explicit.
  assert (2 ≤ num_nodes example_graph) as HK by (cbn; lia).
  split_and!; [exact Hwf|exact HK|].
  exact (sub_graph_nodes_features example_graph 2 Hwf HK).
Defined.

(** C3. Every edge (u, v) retained in the rebuilt sparse adjacency of the
    extracted sub-graph has both ends below K; the retained edges are the
    edges of the full graph with both ends in [0, K), so an edge with an end
    outside [0, K) is dropped; and the sizes of the rebuilt adjacency do not
    exceed K. *)
Theorem sub_graph_edges_below data K :
  wf_Data data → K ≤ num_nodes data →
  ∃ g, sub_graph data K = Some g ∧
       (∀ u v, (u, v) ∈ entries (adj_t g) → u < K ∧ v < K) ∧
       (∀ u v, (u, v) ∈ entries (adj_t g) ↔
               (u, v) ∈ entries (adj_t data) ∧ u < K ∧ v < K) ∧
       (sparse_sizes (adj_t g)).1 ≤ K ∧ (sparse_sizes (adj_t g)).2 ≤ K.
Proof.
  intros Hwf HK. pose proof (sub_graph_spec data K Hwf HK) as Hg.
  cbn zeta in Hg. eexists; split; [exact Hg|]. cbn.
  rewrite zip_fst_snd_id.
  set (kept := filter (fun e => e.1 < K ∧ e.2 < K) (entries (adj_t data))).
  assert (∀ u v, (u, v) ∈ kept ↔ (u, v) ∈ entries (adj_t data) ∧ u < K ∧ v < K)
    as Hkept.
  { intros u v. unfold kept. rewrite list_elem_of_filter; cbn. tauto. }
  split_and!.
  - intros u v Huv%Hkept. tauto.
  - exact Hkept.
  - apply infer_size_le, Forall_fmap, Forall_forall.
    intros [u v] Huv%Hkept; cbn. tauto.
  - apply infer_size_le, Forall_fmap, Forall_forall.
    intros [u v] Huv%Hkept; cbn. tauto.
Qed.

Lemma sub_graph_edges_below_witness :
  wf_Data example_graph ∧ 2 ≤ num_nodes example_graph ∧
  ∃ g, sub_graph example_graph 2 = Some g ∧
       (∀ u v, (u, v) ∈ entries (adj_t g) → u < 2 ∧ v < 2) ∧
       (∀ u v, (u, v) ∈ entries (adj_t g) ↔
               (u, v) ∈ entries (adj_t example_graph) ∧ u < 2 ∧ v < 2) ∧
       (sparse_sizes (adj_t g)).1 ≤ 2 ∧ (sparse_sizes (adj_t g)).2 ≤ 2.
Proof.
  assert (wf_Data example_graph) as Hwf by wf_Data_explicit.
  assert (2 ≤ num_nodes example_graph) as HK by (cbn; lia).
  split_and!; [exact Hwf|exact HK|].
  exact (sub_graph_edges_below example_graph 2 Hwf HK).
Defined.

(** Asking for more nodes than the graph has raises: position N is not a
    node. *)
Theorem sub_graph_beyond_raises data K :
  num_nodes data < K → sub_graph data K = None.
Proof.
  intros HK. unfold sub_graph, Data_subgraph.
  cbn [x y adj_t edge_index]. unfold subgraph, index_to_mask.
  rewrite decide_False; [done|].
  rewrite Forall_forall. intros Hall.
  specialize (Hall (num_nodes data)). unfold num_nodes in *. cbn [x] in Hall.
  assert (size0 (x data) < size0 (x data)); [|lia].
  apply Hall, elem_of_seq. lia.
Qed.

Lemma sub_graph_beyond_raises_witness :
  num_nodes example_graph < 4 ∧ sub_graph example_graph 4 = None.
Proof.
  assert (num_nodes example_graph < 4) as HK by (cbn; lia).
  split; [exact HK|]. exact (sub_graph_beyond_raises example_graph 4 HK).
Defined.

Lemma infer_size_eq K (idx : list nat) :
  Forall (fun u => u < K) idx → infer_size idx = K ↔ K = 0 ∨ K - 1 ∈ idx.
Proof.
  intros Hall. destruct idx as [|u idx].
  { cbn. split; [by left|]. intros [->|Hin]; [done|]. by apply elem_of_nil in Hin. }
  assert (0 < K) as HK by (inversion Hall; lia).
  unfold infer_size. split.
  - intros Hmax. right.
    replace (K - 1) with (max_list (u :: idx)) by lia.
    by apply max_list_elem_of.
  - intros [->|Hin]; [lia|].
    apply max_list_elem_of_le in Hin.
    pose proof (infer_size_le K (u :: idx) Hall) as Hle. unfold infer_size in Hle.
    lia.
Qed.

(** An adjacency rebuilt with [sparse_sizes=None] from edges below K is over
    K nodes exactly when K is zero or node K-1 has an edge in each direction. *)
Lemma rebuilt_adjacency_over K (kept : list (nat * nat)) :
  Forall (fun e => e.1 < K ∧ e.2 < K) kept →
  adj_over K (SparseTensor_new kept.*1 kept.*2 None) ↔
  K = 0 ∨ ((∃ v, (K - 1, v) ∈ kept) ∧ (∃ u, (u, K - 1) ∈ kept)).
Proof.
  intros Hkept.
  unfold adj_over. cbn [SparseTensor_new entries sparse_sizes default].
  rewrite zip_fst_snd_id.
  assert (Forall (fun u => u < K) kept.*1) as H1.
  { apply Forall_fmap. eapply Forall_impl; [exact Hkept|]. by intros e [? _]. }
  assert (Forall (fun u => u < K) kept.*2) as H2.
  { apply Forall_fmap. eapply Forall_impl; [exact Hkept|]. by intros e [_ ?]. }
  pose proof (infer_size_eq K _ H1) as E1. pose proof (infer_size_eq K _ H2) as E2.
  assert (K - 1 ∈ kept.*1 ↔ ∃ v, (K - 1, v) ∈ kept) as M1.
  { rewrite list_elem_of_fmap. split.
    - intros ([u v] & -> & Hin). by exists v.
    - intros (v & Hin). by exists (K - 1, v). }
  assert (K - 1 ∈ kept.*2 ↔ ∃ u, (u, K - 1) ∈ kept) as M2.
  { rewrite list_elem_of_fmap. split.
    - intros ([u v] & -> & Hin). by exists u.
    - intros (u & Hin). by exists (u, K - 1). }
  split.
  - intros [Hsize _]. injection Hsize as S1 S2.
    apply E1 in S1. apply E2 in S2. rewrite M1 in S1. rewrite M2 in S2.
    destruct S1 as [?|S1]; [by left|]. destruct S2 as [?|S2]; [by left|]. by right.
  - intros Hlast. split; [|exact Hkept].
    f_equal; [apply E1|apply E2]; destruct Hlast as [?|[? ?]];
      try (by left); right; by rewrite ?M1, ?M2.
Qed.

(** The adjacency is rebuilt with [sparse_sizes=None], so its sizes come from
    the largest retained index: it is an adjacency over all K nodes exactly
    when K is zero or the last node, K-1, keeps an edge leaving it and an
    edge reaching it. *)
Theorem sub_graph_adjacency_over data K :
  wf_Data data → K ≤ num_nodes data →
  ∃ g, sub_graph data K = Some g ∧
       (adj_over K (adj_t g) ↔
        K = 0 ∨ ((∃ v, (K - 1, v) ∈ entries (adj_t g)) ∧
                 (∃ u, (u, K - 1) ∈ entries (adj_t g)))).
Proof.
  intros Hwf HK. pose proof (sub_graph_spec data K Hwf HK) as Hg.
  cbn zeta in Hg. eexists; split; [exact Hg|].
  cbn [adj_t].
  set (kept := filter (fun e => e.1 < K ∧ e.2 < K) (entries (adj_t data))).
  assert (Forall (fun e => e.1 < K ∧ e.2 < K) kept) as Hkept.
  { apply Forall_forall. intros e He. by apply list_elem_of_filter in He as [? _]. }
  rewrite (rebuilt_adjacency_over K kept Hkept).
  cbn [SparseTensor_new entries]. by rewrite zip_fst_snd_id.
Qed.

Lemma sub_graph_adjacency_over_witness :
  wf_Data example_graph ∧ 2 ≤ num_nodes example_graph ∧
  ∃ g, sub_graph example_graph 2 = Some g ∧
       (adj_over 2 (adj_t g) ↔
        2 = 0 ∨ ((∃ v, (2 - 1, v) ∈ entries (adj_t g)) ∧
                 (∃ u, (u, 2 - 1) ∈ entries (adj_t g)))).
Proof.
  assert (wf_Data example_graph) as Hwf by wf_Data_explicit.
  assert (2 ≤ num_nodes example_graph) as HK by (cbn; lia).
  split_and!; [exact Hwf|exact HK|].
  exact (sub_graph_adjacency_over example_graph 2 Hwf HK).
Defined.

(** ** The class [GCN] *)

Lemma GCN_new_dims F H C re init : GCN_dims F H C (GCN_new F H C re init).
Proof. by repeat split. Qed.

Lemma GCN_train_dims F H C mode self :
  GCN_dims F H C self → GCN_dims F H C (GCN_train mode self).
Proof.
  intros (Hc & Hl & Hb & Ht). unfold GCN_dims, GCN_train; cbn.
  split_and!; try done.
  - rewrite <-list_fmap_compose. exact Hb.
  - rewrite <-list_fmap_compose. cbn.
    apply (f_equal length) in Hb. rewrite length_fmap in Hb. cbn in Hb.
    destruct (bns self) as [|b1 [|b2 [|b3 [|b4 [|]]]]]; by try discriminate.
Qed.

(** Four layers and four batch normalisations, written out. *)
Lemma GCN_dims_inv F H C self :
  GCN_dims F H C self →
  ∃ c1 c2 c3 c4 b1 b2 b3 b4,
    gcnlayers self = [c1; c2; c3; c4] ∧ bns self = [b1; b2; b3; b4] ∧
    conv_dims c1 = (F, H) ∧ conv_dims c2 = (H, H) ∧
    conv_dims c3 = (H, H) ∧ conv_dims c4 = (H, H) ∧
    conv_dims (last_gcn self) = (H, C) ∧
    Forall (fun b => bn_num_features b = H ∧ bn_training b = training self)
           [b1; b2; b3; b4].
Proof.
  intros (Hc & Hl & Hb & Ht).
  destruct (gcnlayers self) as [|c1 [|c2 [|c3 [|c4 [|]]]]]; try discriminate.
  destruct (bns self) as [|b1 [|b2 [|b3 [|b4 [|]]]]]; try discriminate.
  injection Hc as ? ? ? ?. injection Hb as ? ? ? ?. injection Ht as ? ? ? ?.
  eexists _, _, _, _, _, _, _, _. unfold conv_dims.
  split_and!; try done; try congruence.
  by repeat constructor.
Qed.

(** [reset_parameters] keeps the dimensions and the modes of the layers. *)
Lemma reset_parameters_dims F H C self init :
  GCN_dims F H C self → GCN_dims F H C (reset_parameters self init).
Proof.
  intros Hdims.
  destruct (GCN_dims_inv _ _ _ _ Hdims)
    as (c1 & c2 & c3 & c4 & b1 & b2 & b3 & b4 & Hls & Hbs & Hc1 & Hc2 & Hc3 & Hc4
        & Hlast & Hb).
  apply Forall_cons in Hb as [[Hf1 Ht1] Hb].
  apply Forall_cons in Hb as [[Hf2 Ht2] Hb].
  apply Forall_cons in Hb as [[Hf3 Ht3] Hb].
  apply Forall_cons in Hb as [[Hf4 Ht4] _].
  unfold reset_parameters. rewrite Hls, Hbs.
  unfold GCN_dims, conv_dims in *. cbn. split_and!; try done; congruence.
Qed.

(** *** The loop of [forward] is four stages and an output layer *)

Lemma forward_unrolled self g t adj :
  length (gcnlayers self) = 4 → length (bns self) = 4 →
  forward self g t adj = forward_spec self g t adj.
Proof.
  intros Hls Hbs. destruct self as [ls last bs re tr]; cbn in Hls, Hbs.
  destruct ls as [|c1 [|c2 [|c3 [|c4 [|]]]]]; try discriminate.
  destruct bs as [|b1 [|b2 [|b3 [|b4 [|]]]]]; try discriminate.
  unfold forward, forward_spec, hidden_stage, forward_body.
  cbn -[GCNConv_forward BatchNorm1d_forward LogSoftmax relu dropout].
  destruct (GCNConv_forward c1 t adj) as [t1|];
    cbn -[GCNConv_forward BatchNorm1d_forward LogSoftmax relu dropout]; [|done].
  destruct (BatchNorm1d_forward b1 t1) as [[u1 b1']|];
    cbn -[GCNConv_forward BatchNorm1d_forward LogSoftmax relu dropout]; [|done].
  destruct tr.
  - destruct (dropout (relu u1) (1 / 2) true g) as [d1 g1] eqn:E1.
    cbn -[GCNConv_forward BatchNorm1d_forward LogSoftmax relu dropout].
    destruct (GCNConv_forward c2 d1 adj) as [t2|];
      cbn -[GCNConv_forward BatchNorm1d_forward LogSoftmax relu dropout]; [|done].
    destruct (BatchNorm1d_forward b2 t2) as [[u2 b2']|];
      cbn -[GCNConv_forward BatchNorm1d_forward LogSoftmax relu dropout]; [|done].
    destruct (dropout (relu u2) (1 / 2) true g1) as [d2 g2] eqn:E2.
    cbn -[GCNConv_forward BatchNorm1d_forward LogSoftmax relu dropout].
    destruct (GCNConv_forward c3 d2 adj) as [t3|];
      cbn -[GCNConv_forward BatchNorm1d_forward LogSoftmax relu dropout]; [|done].
    destruct (BatchNorm1d_forward b3 t3) as [[u3 b3']|];
      cbn -[GCNConv_forward BatchNorm1d_forward LogSoftmax relu dropout]; [|done].
    destruct (dropout (relu u3) (1 / 2) true g2) as [d3 g3] eqn:E3.
    cbn -[GCNConv_forward BatchNorm1d_forward LogSoftmax relu dropout].
    destruct (GCNConv_forward c4 d3 adj) as [t4|];
      cbn -[GCNConv_forward BatchNorm1d_forward LogSoftmax relu dropout]; [|done].
    destruct (BatchNorm1d_forward b4 t4) as [[u4 b4']|];
      cbn -[GCNConv_forward BatchNorm1d_forward LogSoftmax relu dropout]; [|done].
    destruct (dropout (relu u4) (1 / 2) true g3) as [d4 g4] eqn:E4.
    cbn -[GCNConv_forward BatchNorm1d_forward LogSoftmax relu dropout].
    destruct (GCNConv_forward last d4 adj) as [o|]; [|done].
    by destruct re.
  - cbn -[GCNConv_forward BatchNorm1d_forward LogSoftmax relu].
    destruct (GCNConv_forward c2 (relu u1) adj) as [t2|];
      cbn -[GCNConv_forward BatchNorm1d_forward LogSoftmax relu]; [|done].
    destruct (BatchNorm1d_forward b2 t2) as [[u2 b2']|];
      cbn -[GCNConv_forward BatchNorm1d_forward LogSoftmax relu]; [|done].
    destruct (GCNConv_forward c3 (relu u2) adj) as [t3|];
      cbn -[GCNConv_forward BatchNorm1d_forward LogSoftmax relu]; [|done].
    destruct (BatchNorm1d_forward b3 t3) as [[u3 b3']|];
      cbn -[GCNConv_forward BatchNorm1d_forward LogSoftmax relu]; [|done].
    destruct (GCNConv_forward c4 (relu u3) adj) as [t4|];
      cbn -[GCNConv_forward BatchNorm1d_forward LogSoftmax relu]; [|done].
    destruct (BatchNorm1d_forward b4 t4) as [[u4 b4']|];
      cbn -[GCNConv_forward BatchNorm1d_forward LogSoftmax relu]; [|done].
    destruct (GCNConv_forward last (relu u4) adj) as [o|]; [|done].
    by destruct re.
Qed.

(** *** Shapes through the layers *)

Lemma fill_diag_within N a :
  adj_over N a → Forall (fun v => v.1.1 < N ∧ v.1.2 < N) (fill_diag a).
Proof.
  intros [Hs He]. unfold fill_diag. rewrite Hs; cbn [fst snd].
  apply Forall_app; split; apply Forall_fmap, Forall_forall.
  - intros e [_ He']%list_elem_of_filter. cbn.
    unfold edges_within in He. rewrite Forall_forall in He. by apply He.
  - intros i Hi%elem_of_seq. cbn. lia.
Qed.

Lemma GCNConv_forward_shape c t a N :
  has_shape N (in_channels c) t → adj_over N a →
  ∃ o, GCNConv_forward c t a = Some o ∧ has_shape N (out_channels c) o.
Proof.
  intros [Hn Hf] Ha. pose proof (fill_diag_within N a Ha) as Hfd.
  destruct Ha as [Hs He].
  unfold GCNConv_forward, gcn_norm. rewrite Hs; cbn [fst snd].
  rewrite decide_True by done. cbn [mbind option_bind].
  unfold lin. rewrite decide_True by done. cbn [mbind option_bind].
  unfold spmm; cbn [wsizes wentries size0 size1 fst snd].
  rewrite decide_True.
  2:{ apply Forall_fmap. eapply Forall_impl; [exact Hfd|].
      intros [[u v] w]. cbn. by rewrite Hn. }
  cbn. eexists; split; [done|]. by split.
Qed.

Lemma BatchNorm1d_forward_shape bn t N H :
  has_shape N H t → bn_num_features bn = H → 0 < H →
  bn_training bn = false ∨ N ≠ 1 →
  ∃ o bn', BatchNorm1d_forward bn t = Some (o, bn') ∧
           has_shape N H o ∧
           bn_num_features bn' = H ∧ bn_training bn' = bn_training bn ∧
           (bn_training bn = false → bn' = bn).
Proof.
  intros [Hn Hf] Hbn HH Hmode. unfold BatchNorm1d_forward.
  set (bn0 := if bn_training bn then track bn else bn).
  assert (bn_num_features bn0 = H ∧ bn_training bn0 = bn_training bn ∧
          (bn_training bn = false → bn0 = bn)) as (Hf0 & Ht0 & He0).
  { unfold bn0. by destruct (bn_training bn) eqn:E. }
  clearbody bn0. rewrite Ht0.
  rewrite decide_False by (intros [? ?]; destruct Hmode; congruence).
  destruct (decide (size0 t * size1 t = 0)).
  { rewrite decide_False by lia. eexists _, _. by split_and!. }
  rewrite decide_True by lia.
  destruct (bn_training bn) eqn:Htr; eexists _, _; by split_and!.
Qed.

Lemma dropout_shape t p tr g N H :
  has_shape N H t → has_shape N H (dropout t p tr g).1.
Proof. intros Ht. unfold dropout. by destruct tr. Qed.

Lemma hidden_stage_shape conv bn tr a t g N Fin H :
  0 < H → conv_dims conv = (Fin, H) → bn_num_features bn = H → bn_training bn = tr →
  has_shape N Fin t → adj_over N a → tr = false ∨ N ≠ 1 →
  ∃ o bn' g', hidden_stage conv bn tr a t g = Some (o, bn', g') ∧
              has_shape N H o ∧
              bn_num_features bn' = H ∧ bn_training bn' = tr ∧
              (tr = false → bn' = bn ∧ g' = g).
Proof.
  intros HH Hc Hb Hbt Ht Ha Hmode. injection Hc as Hci Hco.
  unfold hidden_stage.
  destruct (GCNConv_forward_shape conv t a N) as (o1 & -> & Ho1); [by rewrite Hci|done|].
  rewrite Hco in Ho1. cbn.
  destruct (BatchNorm1d_forward_shape bn o1 N H) as (o2 & bn' & -> & Ho2 & Hf & Htr & Hev);
    [done|done|done|by rewrite Hbt|].
  cbn [mbind option_bind]. eexists _, _, _. split; [done|]. split_and!.
  - destruct tr; exact Ho2.
  - done.
  - congruence.
  - intros ->. split; [apply Hev; congruence|done].
Qed.

(** What a call of [forward] returns on well-shaped inputs: the embedding
    [e] the output layer computes, passed through the log-softmax unless
    [return_embeds] is set; a module with the same layers and modes; in
    evaluation mode the very same module and generator. *)
Lemma forward_returns F H C self g t a N :
  0 < H → GCN_dims F H C self → has_shape N F t → adj_over N a →
  training self = false ∨ N ≠ 1 →
  ∃ e self' g',
    forward self g t a =
      Some (if return_embeds self then e else LogSoftmax e, self', g') ∧
    has_shape N C e ∧
    (∃ h, GCNConv_forward (last_gcn self) h a = Some e) ∧
    GCN_dims F H C self' ∧
    return_embeds self' = return_embeds self ∧
    (training self = false → self' = self ∧ g' = g).
Proof.
  intros HH Hdims Ht Ha Hmode.
  destruct (GCN_dims_inv _ _ _ _ Hdims)
    as (c1 & c2 & c3 & c4 & b1 & b2 & b3 & b4 & Hls & Hbs & Hc1 & Hc2 & Hc3 & Hc4
        & Hlast & Hb).
  rewrite forward_unrolled by (by rewrite ?Hls, ?Hbs).
  unfold forward_spec. rewrite Hls, Hbs.
  apply Forall_cons in Hb as [[Hf1 Ht1] Hb].
  apply Forall_cons in Hb as [[Hf2 Ht2] Hb].
  apply Forall_cons in Hb as [[Hf3 Ht3] Hb].
  apply Forall_cons in Hb as [[Hf4 Ht4] _].
  destruct (hidden_stage_shape c1 b1 (training self) a t g N F H)
    as (t1 & b1' & g1 & -> & Hs1 & Hf1' & Ht1' & He1); try done.
  cbn [mbind option_bind].
  destruct (hidden_stage_shape c2 b2 (training self) a t1 g1 N H H)
    as (t2 & b2' & g2 & -> & Hs2 & Hf2' & Ht2' & He2); try done.
  cbn [mbind option_bind].
  destruct (hidden_stage_shape c3 b3 (training self) a t2 g2 N H H)
    as (t3 & b3' & g3 & -> & Hs3 & Hf3' & Ht3' & He3); try done.
  cbn [mbind option_bind].
  destruct (hidden_stage_shape c4 b4 (training self) a t3 g3 N H H)
    as (t4 & b4' & g4 & -> & Hs4 & Hf4' & Ht4' & He4); try done.
  cbn [mbind option_bind].
  injection Hlast as Hli Hlo.
  destruct (GCNConv_forward_shape (last_gcn self) t4 a N) as (e & Hlast & He);
    [by rewrite Hli|done|].
  rewrite Hlast. rewrite Hlo in He. cbn [mbind option_bind].
  exists e. eexists _, _. split; [done|]. split_and!; try done.
  - by exists t4.
  - destruct Hdims as (Hd1 & Hd2 & _ & _).
    unfold GCN_dims; cbn. rewrite Hf1', Hf2', Hf3', Hf4', Ht1', Ht2', Ht3', Ht4'.
    unfold conv_dims in *. split_and!; congruence.
  - intros Hev. destruct (He1 Hev) as [-> ->]. destruct (He2 Hev) as [-> ->].
    destruct (He3 Hev) as [-> ->]. destruct (He4 Hev) as [-> ->].
    split; [|done]. rewrite <-Hls, <-Hbs. by destruct self.
Qed.

(** *** Sums of reals *)

Lemma sum_list_R_app l k : sum_list_R (l ++ k) = (sum_list_R l + sum_list_R k)%R.
Proof.
  unfold sum_list_R. induction l as [|a l IH]; cbn; [lra|]. rewrite IH. lra.
Qed.

Lemma sum_list_R_zero (l : list R) : Forall (fun v => v = 0%R) l → sum_list_R l = 0%R.
Proof.
  unfold sum_list_R. induction 1 as [|a l -> _ IH]; cbn; [done|]. rewrite IH. lra.
Qed.

Lemma sum_list_R_scale (l : list R) c :
  sum_list_R ((fun v => v * c)%R <$> l) = (sum_list_R l * c)%R.
Proof.
  unfold sum_list_R. induction l as [|a l IH]; cbn; [lra|]. rewrite IH. lra.
Qed.

Lemma sum_list_R_pos (l : list R) :
  l ≠ [] → Forall (fun v => 0 < v)%R l → (0 < sum_list_R l)%R.
Proof.
  intros Hne Hall. unfold sum_list_R. destruct Hall as [|a l Ha Hl]; [done|]. cbn.
  assert (0 <= foldr Rplus 0 l)%R; [|lra].
  clear Hne. induction Hl as [|b l Hb _ IH]; cbn; lra.
Qed.

Lemma sum_n_ext n f f' : (∀ k, k < n → f k = f' k) → sum_n n f = sum_n n f'.
Proof.
  intros Hf. unfold sum_n. f_equal. apply list_fmap_ext.
  intros i k Hk%lookup_seq. apply Hf. lia.
Qed.

Lemma sum_n_zero n f : (∀ k, k < n → f k = 0%R) → sum_n n f = 0%R.
Proof.
  intros Hf. apply sum_list_R_zero, Forall_fmap, Forall_forall.
  intros k Hk%elem_of_seq. apply Hf. lia.
Qed.

Lemma sum_n_scale n f c : sum_n n (fun k => f k * c)%R = (sum_n n f * c)%R.
Proof.
  unfold sum_n. rewrite <-sum_list_R_scale, <-list_fmap_compose. done.
Qed.

Lemma sum_n_exp_pos n f : 0 < n → (0 < sum_n n (fun k => exp (f k)))%R.
Proof.
  intros Hn. apply sum_list_R_pos.
  - destruct n; [lia|]. done.
  - apply Forall_fmap, Forall_forall. intros k _. apply exp_pos.
Qed.

(** *** The log-softmax normalises every row *)

Lemma LogSoftmax_row_exp_sum t i :
  0 < size1 t → row_exp_sum (LogSoftmax t) i = 1%R.
Proof.
  intros Hc. unfold row_exp_sum, LogSoftmax; cbn [size1 item].
  set (S := sum_n (size1 t) (fun k => exp (item t i k))).
  assert (0 < S)%R as HS by (by apply sum_n_exp_pos).
  rewrite (sum_n_ext _ _ (fun j => exp (item t i j) * / S)%R).
  2:{ intros k _. unfold Rminus. by rewrite exp_plus, exp_Ropp, exp_ln. }
  rewrite sum_n_scale. fold S. apply Rinv_r. lra.
Qed.

(** An output layer whose weights are all zero returns its bias in every
    row, whatever it is given. *)
Lemma GCNConv_forward_zero_weight c t a o :
  (∀ j k, lin_weight c j k = 0%R) → GCNConv_forward c t a = Some o →
  ∀ i k, item o i k = bias c k.
Proof.
  intros Hw Hfw i k. unfold GCNConv_forward, gcn_norm, lin, spmm in Hfw.
  destruct (decide ((sparse_sizes a).1 = (sparse_sizes a).2)); [|done].
  cbn [mbind option_bind] in Hfw.
  destruct (decide (size1 t = in_channels c)); [|done].
  cbn [mbind option_bind size0 size1 item wsizes wentries] in Hfw.
  match type of Hfw with
  | context [decide ?P] => destruct (decide P); [|done]
  end.
  cbn [mbind option_bind size0 size1 item] in Hfw. injection Hfw as <-.
  cbn [item]. rewrite sum_list_R_zero; [lra|].
  apply Forall_fmap, Forall_forall. intros v _. cbn.
  rewrite sum_n_zero; [lra|]. intros j _. rewrite Hw. lra.
Qed.

(** ** The four claims on [GCN.forward] *)

(** The first batch normalisation raises when the module has no hidden
    feature, and when it is in training mode and the graph has one node. *)
Lemma forward_first_batch_norm_raises F H C self g t a N :
  GCN_dims F H C self → has_shape N F t → adj_over N a →
  H = 0 ∨ (training self = true ∧ N = 1) →
  forward self g t a = None.
Proof.
  intros Hdims Ht Ha Hbad.
  destruct (GCN_dims_inv _ _ _ _ Hdims)
    as (c1 & c2 & c3 & c4 & b1 & b2 & b3 & b4 & Hls & Hbs & Hc1 & _ & _ & _ & _ & Hb).
  apply Forall_cons in Hb as [[Hf1 Ht1] _].
  unfold conv_dims in Hc1. injection Hc1 as Hin Hout.
  destruct (GCNConv_forward_shape c1 t a N) as (u & Hu & [Hu0 Hu1]);
    [by rewrite Hin|done|].
  rewrite Hout in Hu1.
  assert (BatchNorm1d_forward b1 u = None) as Hbn.
  { unfold BatchNorm1d_forward.
    set (bn0 := if bn_training b1 then track b1 else b1).
    assert (bn_num_features bn0 = H ∧ bn_training bn0 = training self) as [Hf0 Ht0].
    { unfold bn0. destruct (bn_training b1) eqn:E; cbn; split; congruence. }
    clearbody bn0.
    destruct (decide (bn_training bn0 = true ∧ size0 u = 1)) as [|Hnot]; [done|].
    destruct Hbad as [->|[Htr ->]].
    - rewrite decide_True by (rewrite Hu1; lia). by rewrite decide_True.
    - exfalso. apply Hnot. split; congruence. }
  assert (forward_body a 0 (t, self, g) = None) as Hbody.
  { unfold forward_body. rewrite Hls, Hbs.
    change ([c1; c2; c3; c4] !! 0) with (Some c1).
    change ([b1; b2; b3; b4] !! 0) with (Some b1). cbn [mbind option_bind].
    rewrite Hu. cbn [mbind option_bind]. by rewrite Hbn. }
  unfold forward. rewrite Hls.
  change (seq 0 (length [c1; c2; c3; c4])) with [0; 1; 2; 3].
  cbn [for_each]. by rewrite Hbody.
Qed.

(** C1, as stated, fails twice.  A new module is in training mode, and on a
    graph of a single node its first batch normalisation rejects the batch,
    so that [forward] raises and there is no output of shape 1 by C.  And
    the hidden dimension matters: with no hidden feature the first batch
    normalisation has no [weight[0]], and [forward] raises on the three-node
    graph even in evaluation mode. *)
Lemma forward_output_shape_counterexamples :
  (let self := GCN_new 1 1 1 false zero_init in
   let t := mkTensor 1 1 (fun _ _ => 0%R) in
   let a := mkSparseTensor [] (1, 1) in
   GCN_dims 1 1 1 self ∧ has_shape 1 1 t ∧ adj_over 1 a ∧
   training self = true ∧
   forward self example_generator t a = None) ∧
  (let self := GCN_eval (GCN_new 2 0 2 false zero_init) in
   let t := x example_graph in
   let a := adj_t example_graph in
   GCN_dims 2 0 2 self ∧ has_shape 3 2 t ∧ adj_over 3 a ∧
   training self = false ∧
   forward self example_generator t a = None).
Proof.
  cbn zeta. split.
  - split_and!; try done. split; [done|]. constructor.
  - split_and!; try done.
    split; [done|]. unfold edges_within; cbn.
    repeat (constructor; [cbn; lia|]). constructor.
Qed.

(** The flag [return_embeds] is read once, after the output layer. *)
Lemma forward_with_return_embeds F H C self g t a r :
  GCN_dims F H C self →
  forward (with_return_embeds r self) g t a =
    '(e, self', g') ← forward (with_return_embeds true self) g t a;
    Some (if r then e else LogSoftmax e, with_return_embeds r self', g').
Proof.
  intros Hdims.
  destruct (GCN_dims_inv _ _ _ _ Hdims)
    as (c1 & c2 & c3 & c4 & b1 & b2 & b3 & b4 & Hls & Hbs & _).
  rewrite !forward_unrolled by (cbn; by rewrite ?Hls, ?Hbs).
  unfold forward_spec, with_return_embeds; cbn [gcnlayers bns training last_gcn return_embeds].
  rewrite Hls, Hbs.
  destruct (hidden_stage c1 b1 (training self) a t g) as [[[t1 b1'] g1]|];
    cbn [mbind option_bind]; [|done].
  destruct (hidden_stage c2 b2 (training self) a t1 g1) as [[[t2 b2'] g2]|];
    cbn [mbind option_bind]; [|done].
  destruct (hidden_stage c3 b3 (training self) a t2 g2) as [[[t3 b3'] g3]|];
    cbn [mbind option_bind]; [|done].
  destruct (hidden_stage c4 b4 (training self) a t3 g3) as [[[t4 b4'] g4]|];
    cbn [mbind option_bind]; [|done].
  destruct (GCNConv_forward (last_gcn self) t4 a) as [e|];
    cbn [mbind option_bind]; [|done].
  by destruct r.
Qed.

(** *** Evaluation mode *)

Lemma GCN_eval_eval_mode self : eval_mode (GCN_eval self).
Proof.
  split; [done|]. cbn. apply Forall_fmap, Forall_forall. by intros b _.
Qed.

Lemma BatchNorm1d_forward_eval bn t o bn' :
  bn_training bn = false → BatchNorm1d_forward bn t = Some (o, bn') → bn' = bn.
Proof.
  intros Hev. unfold BatchNorm1d_forward. rewrite Hev.
  repeat case_decide; try done; rewrite ?Hev; congruence.
Qed.

(** In evaluation mode one pass of the loop body leaves the module and the
    generator as they are, and its result does not depend on the generator. *)
Lemma forward_body_eval a i t self g :
  eval_mode self →
  match forward_body a i (t, self, g) with
  | Some (t', self', g') =>
      self' = self ∧ g' = g ∧
      ∀ g2, forward_body a i (t, self, g2) = Some (t', self, g2)
  | None => ∀ g2, forward_body a i (t, self, g2) = None
  end.
Proof.
  intros [Htr Hbns]. unfold forward_body.
  destruct (gcnlayers self !! i) as [conv|]; cbn [mbind option_bind]; [|done].
  destruct (GCNConv_forward conv t a) as [t1|]; cbn [mbind option_bind]; [|done].
  destruct (bns self !! i) as [bn|] eqn:Hbn; cbn [mbind option_bind]; [|done].
  destruct (BatchNorm1d_forward bn t1) as [[t2 bn']|] eqn:Hfw;
    cbn [mbind option_bind]; [|done].
  assert (bn' = bn) as ->.
  { eapply BatchNorm1d_forward_eval; [|exact Hfw].
    rewrite Forall_forall in Hbns. eapply Hbns, list_elem_of_lookup_2, Hbn. }
  rewrite list_insert_id by done. rewrite Htr. cbn.
  assert (mkGCN (gcnlayers self) (last_gcn self) (bns self) (return_embeds self) false
          = self) as -> by (destruct self; cbn in *; by subst).
  done.
Qed.

Lemma for_each_forward_body_eval a range t self g :
  eval_mode self →
  match for_each range (forward_body a) (t, self, g) with
  | Some (t', self', g') =>
      self' = self ∧ g' = g ∧
      ∀ g2, for_each range (forward_body a) (t, self, g2) = Some (t', self, g2)
  | None => ∀ g2, for_each range (forward_body a) (t, self, g2) = None
  end.
Proof.
  intros Hev. revert t. induction range as [|i range IH]; intros t; cbn [for_each].
  { done. }
  pose proof (forward_body_eval a i t self g Hev) as Hbody. revert Hbody.
  destruct (forward_body a i (t, self, g)) as [[[t1 s1] g1]|];
    cbn [mbind option_bind].
  - intros (-> & -> & Hbody). specialize (IH t1). revert IH.
    destruct (for_each range (forward_body a) (t1, self, g)) as [[[t2 s2] g2]|].
    + intros (-> & -> & IH). split_and!; try done.
      intros g3. rewrite Hbody; cbn [mbind option_bind]. apply IH.
    + intros IH g3. rewrite Hbody; cbn [mbind option_bind]. apply IH.
  - intros Hbody g2. by rewrite Hbody.
Qed.

Lemma forward_eval self g t a :
  eval_mode self →
  match forward self g t a with
  | Some (out, self', g') =>
      self' = self ∧ g' = g ∧ ∀ g2, forward self' g2 t a = Some (out, self', g2)
  | None => ∀ g2, forward self g2 t a = None
  end.
Proof.
  intros Hev. unfold forward.
  pose proof (for_each_forward_body_eval a (seq 0 (length (gcnlayers self)))
                t self g Hev) as Hloop. revert Hloop.
  destruct (for_each _ _ (t, self, g)) as [[[t1 s1] g1]|]; cbn [mbind option_bind].
  - intros (-> & -> & Hloop).
    destruct (GCNConv_forward (last_gcn self) t1 a) as [e|] eqn:He;
      cbn [mbind option_bind].
    + split_and!; try done. intros g2. rewrite Hloop; cbn [mbind option_bind].
      by rewrite He.
    + intros g2. rewrite Hloop; cbn [mbind option_bind]. by rewrite He.
  - intros Hloop g2. by rewrite Hloop.
Qed.

(** Decides [adj_over] on an adjacency that is written out. *)
Ltac adj_over_explicit :=
  split; [reflexivity|];
  unfold edges_within; cbn; repeat (constructor; [cbn; lia|]); constructor.

(** C1 (amended). For every node count N, feature dimension F, hidden
    dimension H and class count C, on an N-by-F feature matrix and an
    adjacency over N nodes: when H is positive and the module is in
    evaluation mode or N is not 1, [GCN.forward] returns an output of shape
    N-by-C, whatever H is; in training mode on a single node the call
    raises; and with hidden dimension 0 the call raises. *)
Theorem forward_output_shape F H C self g t a N :
  GCN_dims F H C self → has_shape N F t → adj_over N a →
  (0 < H → training self = false ∨ N ≠ 1 →
   ∃ out self' g', forward self g t a = Some (out, self', g') ∧ has_shape N C out) ∧
  (training self = true → N = 1 → forward self g t a = None) ∧
  (H = 0 → forward self g t a = None).
Proof.
  intros Hdims Ht Ha. split_and!.
  - intros HH Hmode.
    destruct (forward_returns F H C self g t a N HH Hdims Ht Ha Hmode)
      as (e & self' & g' & Hfw & He & _).
    eexists _, _, _. split; [exact Hfw|]. by destruct (return_embeds self).
  - intros Htr HN.
    apply (forward_first_batch_norm_raises F H C self g t a N); try done. by right.
  - intros HH.
    apply (forward_first_batch_norm_raises F H C self g t a N); try done. by left.
Qed.

Lemma forward_output_shape_witness :
  (let self := GCN_new 2 3 2 false zero_init in
   let t := x example_graph in
   let a := adj_t example_graph in
   GCN_dims 2 3 2 self ∧ has_shape 3 2 t ∧ adj_over 3 a ∧
   0 < 3 ∧ (training self = false ∨ 3 ≠ 1) ∧
   ∃ out self' g',
     forward self example_generator t a = Some (out, self', g') ∧ has_shape 3 2 out) ∧
  (let self := GCN_new 1 2 1 false zero_init in
   let t := mkTensor 1 1 (fun _ _ => 0%R) in
   let a := mkSparseTensor [] (1, 1) in
   GCN_dims 1 2 1 self ∧ has_shape 1 1 t ∧ adj_over 1 a ∧
   training self = true ∧ 1 = 1 ∧
   forward self example_generator t a = None) ∧
  (let self := GCN_eval (GCN_new 2 0 2 false zero_init) in
   let t := x example_graph in
   let a := adj_t example_graph in
   GCN_dims 2 0 2 self ∧ has_shape 3 2 t ∧ adj_over 3 a ∧
   0 = 0 ∧
   forward self example_generator t a = None).
Proof.
  cbn zeta.
  assert (0 < 3) as HH by lia.
  pose proof (GCN_new_dims 2 3 2 false zero_init) as Hdims.
  assert (has_shape 3 2 (x example_graph)) as Ht by (split; reflexivity).
  assert (adj_over 3 (adj_t example_graph)) as Ha by adj_over_explicit.
  assert (training (GCN_new 2 3 2 false zero_init) = false ∨ 3 ≠ 1) as Hmode
    by (right; lia).
  pose proof (GCN_new_dims 1 2 1 false zero_init) as Hdims1.
  assert (has_shape 1 1 (mkTensor 1 1 (fun _ _ => 0%R))) as Ht1
    by (split; reflexivity).
  assert (adj_over 1 (mkSparseTensor [] (1, 1))) as Ha1 by adj_over_explicit.
  assert (training (GCN_new 1 2 1 false zero_init) = true) as Htr1 by reflexivity.
  pose proof (GCN_train_dims 2 0 2 false _ (GCN_new_dims 2 0 2 false zero_init))
    as Hdims0.
  split_and!.
  - exact Hdims.
  - exact Ht.
  - exact Ha.
  - exact HH.
  - exact Hmode.
  - exact (proj1 (forward_output_shape 2 3 2 _ example_generator _ _ 3 Hdims Ht Ha)
             HH Hmode).
  - exact Hdims1.
  - exact Ht1.
  - exact Ha1.
  - exact Htr1.
  - reflexivity.
  - exact (proj1 (proj2 (forward_output_shape 1 2 1 _ example_generator _ _ 1
                           Hdims1 Ht1 Ha1)) Htr1 eq_refl).
  - exact Hdims0.
  - exact Ht.
  - exact Ha.
  - reflexivity.
  - exact (proj2 (proj2 (forward_output_shape 2 0 2 _ example_generator _ _ 3
                           Hdims0 Ht Ha)) eq_refl).
Defined.

(** C6. Built with [return_embeds=True], [GCN.forward] returns the output
    [e] of the output layer as it is, and such rows need not be normalised
    (a module whose weights are zero returns rows whose exponentials sum to
    2); built with [return_embeds=False] it returns the log-softmax of the
    same [e], and in every row of that output the exponentials of the
    entries sum to 1. *)
Theorem forward_return_embeds_flag :
  (∀ F H C self g t a N,
     0 < H → 0 < C → GCN_dims F H C self → has_shape N F t → adj_over N a →
     training self = false ∨ N ≠ 1 →
     ∃ e self' g',
       has_shape N C e ∧
       forward (with_return_embeds true self) g t a =
         Some (e, with_return_embeds true self', g') ∧
       forward (with_return_embeds false self) g t a =
         Some (LogSoftmax e, with_return_embeds false self', g') ∧
       ∀ i, i < N → row_exp_sum (LogSoftmax e) i = 1%R) ∧
  (∃ self g t a out self' g',
     return_embeds self = true ∧
     forward self g t a = Some (out, self', g') ∧
     0 < size0 out ∧ row_exp_sum out 0 = 2%R).
Proof.
  split.
  - intros F H C self g t a N HH HC Hdims Ht Ha Hmode.
    assert (GCN_dims F H C (with_return_embeds true self)) as Hdims' by exact Hdims.
    destruct (forward_returns F H C _ g t a N HH Hdims' Ht Ha Hmode)
      as (e & self' & g' & Hfw & He & _ & _ & Hre & _).
    cbn [with_return_embeds return_embeds] in Hfw.
    exists e, self', g'.
    assert (with_return_embeds true self' = self') as Hself'.
    { destruct self'; cbn in *. by subst. }
    split_and!.
    + exact He.
    + by rewrite Hself'.
    + rewrite (forward_with_return_embeds F H C self g t a false Hdims).
      by rewrite Hfw.
    + intros i _. apply LogSoftmax_row_exp_sum. destruct He as [_ ->]. exact HC.
  - set (self := GCN_new 2 3 2 true zero_init).
    assert (GCN_dims 2 3 2 self) as Hdims by apply GCN_new_dims.
    assert (has_shape 3 2 (x example_graph)) as Ht by done.
    assert (adj_over 3 (adj_t example_graph)) as Ha by adj_over_explicit.
    destruct (forward_returns 2 3 2 self example_generator _ _ 3
                ltac:(lia) Hdims Ht Ha ltac:(right; lia))
      as (e & self' & g' & Hfw & [He0 He1] & [h Hh] & _).
    exists self, example_generator, (x example_graph), (adj_t example_graph),
           e, self', g'.
    split_and!; [done|exact Hfw|lia|].
    unfold row_exp_sum. rewrite He1.
    rewrite (sum_n_ext _ _ (fun _ => 1%R)).
    + unfold sum_n, sum_list_R; cbn. lra.
    + intros k _.
      assert (∀ j k', lin_weight (last_gcn self) j k' = 0%R) as Hw
        by (intros; reflexivity).
      rewrite (GCNConv_forward_zero_weight _ _ _ _ Hw Hh).
      change (bias (last_gcn self) k) with 0%R. apply exp_0.
Qed.

Lemma forward_return_embeds_flag_witness :
  let self := GCN_eval (GCN_new 2 3 2 false zero_init) in
  let t := x example_graph in
  let a := adj_t example_graph in
  0 < 3 ∧ 0 < 2 ∧ GCN_dims 2 3 2 self ∧ has_shape 3 2 t ∧ adj_over 3 a ∧
  (training self = false ∨ 3 ≠ 1) ∧
  ∃ e self' g',
    has_shape 3 2 e ∧
    forward (with_return_embeds true self) example_generator t a =
      Some (e, with_return_embeds true self', g') ∧
    forward (with_return_embeds false self) example_generator t a =
      Some (LogSoftmax e, with_return_embeds false self', g') ∧
    ∀ i, i < 3 → row_exp_sum (LogSoftmax e) i = 1%R.
Proof.
  cbn zeta.
  assert (0 < 3) as HH by lia.
  assert (0 < 2) as HC by lia.
  assert (GCN_dims 2 3 2 (GCN_eval (GCN_new 2 3 2 false zero_init))) as Hdims
    by (repeat split; reflexivity).
  assert (has_shape 3 2 (x example_graph)) as Ht by (split; reflexivity).
  assert (adj_over 3 (adj_t example_graph)) as Ha by adj_over_explicit.
  assert (training (GCN_eval (GCN_new 2 3 2 false zero_init)) = false ∨ 3 ≠ 1)
    as Hmode by (left; reflexivity).
  split_and!; [exact HH|exact HC|exact Hdims|exact Ht|exact Ha|exact Hmode|].
  exact (proj1 forward_return_embeds_flag 2 3 2 _ example_generator _ _ 3
           HH HC Hdims Ht Ha Hmode).
Defined.

(** A stage of the loop computes what the specification says of a hidden
    stage. *)
Lemma hidden_stage_as_specified conv bn tr a t g o bn' g' :
  hidden_stage conv bn tr a t g = Some (o, bn', g') →
  stage_as_specified conv bn tr a t g o bn' g'.
Proof.
  unfold hidden_stage. intros Hst.
  destruct (GCNConv_forward conv t a) as [u|] eqn:Hu;
    cbn [mbind option_bind] in Hst; [|done].
  destruct (BatchNorm1d_forward bn u) as [[v b]|] eqn:Hv;
    cbn [mbind option_bind] in Hst; [|done].
  exists u, v. destruct tr; cbn in Hst; injection Hst as <- <- <-.
  - split_and!; try done. intros i j _ _. cbn.
    destruct (bernoulli g (offset g + i * size1 v + j)); [|done]. field.
  - by split_and!.
Qed.

(** C7. On well-shaped inputs [forward] returns, and what it returns is
    made by exactly four hidden stages in sequence followed by the output
    convolution, which projects to the C classes.  Each hidden stage is a
    graph convolution, then batch normalisation, then ReLU (every entry
    replaced by its maximum with zero), then dropout at rate 0.5, which in
    training mode zeroes an entry or doubles it on the draw of that entry
    and in evaluation mode changes nothing and draws nothing.  Each stage
    works on the output and the generator the stage before it left. *)
Theorem forward_four_hidden_stages F H C self g t a N :
  0 < H → GCN_dims F H C self → has_shape N F t → adj_over N a →
  training self = false ∨ N ≠ 1 →
  ∃ c1 c2 c3 c4 b1 b2 b3 b4 h1 h2 h3 h4 b1' b2' b3' b4' g1 g2 g3 g4 e,
    gcnlayers self = [c1; c2; c3; c4] ∧ bns self = [b1; b2; b3; b4] ∧
    stage_as_specified c1 b1 (training self) a t g h1 b1' g1 ∧
    stage_as_specified c2 b2 (training self) a h1 g1 h2 b2' g2 ∧
    stage_as_specified c3 b3 (training self) a h2 g2 h3 b3' g3 ∧
    stage_as_specified c4 b4 (training self) a h3 g3 h4 b4' g4 ∧
    has_shape N H h4 ∧
    GCNConv_forward (last_gcn self) h4 a = Some e ∧
    out_channels (last_gcn self) = C ∧ has_shape N C e ∧
    forward self g t a =
      Some (if return_embeds self then e else LogSoftmax e,
            mkGCN (gcnlayers self) (last_gcn self) [b1'; b2'; b3'; b4']
                  (return_embeds self) (training self),
            g4).
Proof.
  intros HH Hdims Ht Ha Hmode.
  destruct (GCN_dims_inv _ _ _ _ Hdims)
    as (c1 & c2 & c3 & c4 & b1 & b2 & b3 & b4 & Hls & Hbs & Hc1 & Hc2 & Hc3 & Hc4
        & Hlast & Hb).
  apply Forall_cons in Hb as [[Hf1 Ht1] Hb].
  apply Forall_cons in Hb as [[Hf2 Ht2] Hb].
  apply Forall_cons in Hb as [[Hf3 Ht3] Hb].
  apply Forall_cons in Hb as [[Hf4 Ht4] _].
  destruct (hidden_stage_shape c1 b1 (training self) a t g N F H)
    as (h1 & b1' & g1 & Hs1 & Hh1 & _); try done.
  destruct (hidden_stage_shape c2 b2 (training self) a h1 g1 N H H)
    as (h2 & b2' & g2 & Hs2 & Hh2 & _); try done.
  destruct (hidden_stage_shape c3 b3 (training self) a h2 g2 N H H)
    as (h3 & b3' & g3 & Hs3 & Hh3 & _); try done.
  destruct (hidden_stage_shape c4 b4 (training self) a h3 g3 N H H)
    as (h4 & b4' & g4 & Hs4 & Hh4 & _); try done.
  unfold conv_dims in Hlast. injection Hlast as Hlin Hlout.
  destruct (GCNConv_forward_shape (last_gcn self) h4 a N) as (e & He & Hes);
    [by rewrite Hlin|done|].
  rewrite Hlout in Hes.
  exists c1, c2, c3, c4, b1, b2, b3, b4, h1, h2, h3, h4, b1', b2', b3', b4',
         g1, g2, g3, g4, e.
  split_and!; try done; try (by apply hidden_stage_as_specified).
  rewrite forward_unrolled by (by rewrite ?Hls, ?Hbs).
  unfold forward_spec. rewrite Hls, Hbs, Hs1. cbn [mbind option_bind].
  rewrite Hs2. cbn [mbind option_bind]. rewrite Hs3. cbn [mbind option_bind].
  rewrite Hs4. cbn [mbind option_bind]. rewrite He. cbn [mbind option_bind].
  done.
Qed.

Lemma forward_four_hidden_stages_witness :
  let self := GCN_new 2 3 2 false zero_init in
  let g := example_generator in
  let t := x example_graph in
  let a := adj_t example_graph in
  0 < 3 ∧ GCN_dims 2 3 2 self ∧ has_shape 3 2 t ∧ adj_over 3 a ∧
  training self = true ∧ (training self = false ∨ 3 ≠ 1) ∧
  ∃ c1 c2 c3 c4 b1 b2 b3 b4 h1 h2 h3 h4 b1' b2' b3' b4' g1 g2 g3 g4 e,
    gcnlayers self = [c1; c2; c3; c4] ∧ bns self = [b1; b2; b3; b4] ∧
    stage_as_specified c1 b1 (training self) a t g h1 b1' g1 ∧
    stage_as_specified c2 b2 (training self) a h1 g1 h2 b2' g2 ∧
    stage_as_specified c3 b3 (training self) a h2 g2 h3 b3' g3 ∧
    stage_as_specified c4 b4 (training self) a h3 g3 h4 b4' g4 ∧
    has_shape 3 3 h4 ∧
    GCNConv_forward (last_gcn self) h4 a = Some e ∧
    out_channels (last_gcn self) = 2 ∧ has_shape 3 2 e ∧
    forward self g t a =
      Some (if return_embeds self then e else LogSoftmax e,
            mkGCN (gcnlayers self) (last_gcn self) [b1'; b2'; b3'; b4']
                  (return_embeds self) (training self),
            g4).
Proof.
  cbn zeta.
  assert (0 < 3) as HH by lia.
  pose proof (GCN_new_dims 2 3 2 false zero_init) as Hdims.
  assert (has_shape 3 2 (x example_graph)) as Ht by (split; reflexivity).
  assert (adj_over 3 (adj_t example_graph)) as Ha by adj_over_explicit.
  assert (training (GCN_new 2 3 2 false zero_init) = false ∨ 3 ≠ 1) as Hmode
    by (right; lia).
  split_and!; [exact HH|exact Hdims|exact Ht|exact Ha|reflexivity|exact Hmode|].
  exact (forward_four_hidden_stages 2 3 2 _ example_generator
           (x example_graph) (adj_t example_graph) 3 HH Hdims Ht Ha Hmode).
Defined.

(** C9. With the module in evaluation mode, a call of [forward] leaves the
    module and the random generator as they are, and a second call on the
    same features and adjacency, whatever the state of the generator,
    returns the same output (or fails as the first one did). *)
Theorem forward_eval_deterministic self g t a :
  let m := GCN_eval self in
  match forward m g t a with
  | Some (out, m', g') =>
      m' = m ∧ g' = g ∧ ∀ g2, forward m' g2 t a = Some (out, m', g2)
  | None => ∀ g2, forward m g2 t a = None
  end.
Proof. cbn zeta. apply forward_eval, GCN_eval_eval_mode. Qed.

(** *** Indexing, arg-max and the evaluator *)

Lemma gather_within {A} (v : list A) (idx : list nat) :
  Forall (fun i => i < length v) idx →
  ∃ l, gather v idx = Some l ∧ length l = length idx ∧ ∀ a, a ∈ l → a ∈ v.
Proof.
  intros Hidx. unfold gather.
  destruct (mapM_is_Some_2 (fun i => v !! i) idx) as [l Hl].
  { eapply Forall_impl; [exact Hidx|]. intros i Hi. by apply lookup_lt_is_Some_2. }
  exists l. split; [done|]. split; [symmetry; by eapply length_mapM|].
  apply mapM_Some_1 in Hl. intros a (k & Hk)%list_elem_of_lookup_1.
  destruct (Forall2_lookup_r _ _ _ _ _ Hl Hk) as (i & _ & Hi).
  by eapply list_elem_of_lookup_2.
Qed.

Lemma gather_outside {A} (v : list A) (idx : list nat) i :
  i ∈ idx → length v ≤ i → gather v idx = None.
Proof.
  intros Hi Hlen. apply mapM_None_2, Exists_exists. exists i.
  split; [done|]. by apply lookup_ge_None_2.
Qed.

Lemma argmax_from_lt f best k n : best < k → argmax_from f best k n < k + n.
Proof.
  revert best k. induction n as [|n IH]; intros best k Hlt; cbn; [lia|].
  destruct (Rlt_dec (f best) (f k)).
  - pose proof (IH k (S k) ltac:(lia)). lia.
  - pose proof (IH best (S k) ltac:(lia)). lia.
Qed.

Lemma argmax_Some t :
  0 < size1 t →
  ∃ l, argmax t = Some l ∧ length l = size0 t ∧ Forall (fun c => c < size1 t) l.
Proof.
  intros Hc. unfold argmax. rewrite decide_False by lia.
  eexists; split; [done|]. rewrite length_fmap, length_seq. split; [done|].
  apply Forall_fmap, Forall_forall. intros i _. cbn.
  pose proof (argmax_from_lt (item t i) 0 1 (size1 t - 1) ltac:(lia)). lia.
Qed.

Lemma correct_le y_true y_pred : correct y_true y_pred ≤ length y_true.
Proof.
  unfold correct. etrans; [apply length_filter|].
  rewrite length_zip_with. lia.
Qed.

Lemma Evaluator_eval_returns y_true y_pred :
  length y_true = length y_pred → y_true ≠ [] →
  ∃ acc, Evaluator_eval y_true y_pred = Some acc ∧ (0 <= acc <= 1)%R.
Proof.
  intros Hlen Hne. unfold Evaluator_eval. rewrite decide_True by done.
  eexists; split; [done|].
  assert (0 < length y_true) as Hpos by (destruct y_true; [done|cbn; lia]).
  pose proof (correct_le y_true y_pred) as Hle.
  apply lt_INR in Hpos. apply le_INR in Hle. cbn in Hpos.
  pose proof (pos_INR (correct y_true y_pred)) as H0.
  unfold Rdiv.
  pose proof (Rinv_0_lt_compat _ Hpos) as Hinv.
  pose proof (Rinv_r (INR (length y_true)) ltac:(lra)) as Hone.
  set (b := INR (length y_true)) in *. set (ib := (/ b)%R) in *.
  split; nra.
Qed.

Lemma split_acc_returns data split_idx y_pred key idx N :
  length (y data) = N → length y_pred = N →
  split_idx !! key = Some idx → split_ok N idx →
  ∃ acc, split_acc data split_idx y_pred key = Some acc ∧ (0 <= acc <= 1)%R.
Proof.
  intros Hy Hp Hkey [Hne Hidx]. unfold split_acc. rewrite Hkey; cbn [mbind option_bind].
  destruct (gather_within (y data) idx) as (yt & -> & Hyt & _); [by rewrite Hy|].
  destruct (gather_within y_pred idx) as (yp & -> & Hyp & _); [by rewrite Hp|].
  cbn [mbind option_bind]. apply Evaluator_eval_returns; [congruence|].
  destruct yt, idx; cbn in *; done.
Qed.

(** On a graph and splits that fit, [test] returns three accuracies between
    0 and 1, leaves the module in evaluation mode and the generator as it
    was. *)
Lemma test_returns F H C N data split_idx train_idx m g :
  ready F H C N data split_idx train_idx → GCN_dims F H C m →
  ∃ tr va te,
    test m g data split_idx false = Some (tr, va, te, GCN_eval m, g) ∧
    (0 <= tr <= 1)%R ∧ (0 <= va <= 1)%R ∧ (0 <= te <= 1)%R.
Proof.
  intros (HH & HC & HN & Hx & Hadj & Hy & Hlab & Htrain & Hsplits) Hdims.
  apply Forall_cons in Hsplits as [(itr & Htr & Hoktr) Hsplits].
  apply Forall_cons in Hsplits as [(iva & Hva & Hokva) Hsplits].
  apply Forall_cons in Hsplits as [(ite & Hte & Hokte) _].
  unfold test.
  destruct (forward_returns F H C (GCN_eval m) g (x data) (adj_t data) N)
    as (e & m' & g' & -> & He & _ & _ & _ & Hsame);
    [done|by apply GCN_train_dims|done|done|by left|].
  destruct (Hsame eq_refl) as [-> ->]. cbn [mbind option_bind].
  set (out := if return_embeds (GCN_eval m) then e else LogSoftmax e).
  assert (has_shape N C out) as [Ho0 Ho1] by (unfold out; by destruct (return_embeds _)).
  destruct (argmax_Some out) as (yp & -> & Hyp & _); [by rewrite Ho1|].
  rewrite Ho0 in Hyp. cbn [mbind option_bind].
  destruct (split_acc_returns data split_idx yp "train" itr N) as (tr & -> & Btr);
    try done.
  destruct (split_acc_returns data split_idx yp "valid" iva N) as (va & -> & Bva);
    try done.
  destruct (split_acc_returns data split_idx yp "test" ite N) as (te & -> & Bte);
    try done.
  cbn [mbind option_bind]. by exists tr, va, te.
Qed.

(** ** The helper [test] *)

Lemma split_acc_empty data split_idx y_pred key :
  split_idx !! key = Some [] → split_acc data split_idx y_pred key = None.
Proof. intros Hkey. unfold split_acc. by rewrite Hkey. Qed.

Lemma split_acc_missing data split_idx y_pred key :
  split_idx !! key = None → split_acc data split_idx y_pred key = None.
Proof. intros Hkey. unfold split_acc. by rewrite Hkey. Qed.

(** The helper raises as soon as one of the three splits is empty (the
    evaluator divides by the size of the split) or is missing from the
    dictionary. *)
Theorem test_empty_split_raises m g data split_idx save key :
  key ∈ ["train"; "valid"; "test"] →
  split_idx !! key = Some [] ∨ split_idx !! key = None →
  test m g data split_idx save = None.
Proof.
  intros Hkey Hsplit. unfold test.
  destruct (forward _ _ _ _) as [[[out m'] g']|]; cbn [mbind option_bind]; [|done].
  destruct (argmax out) as [y_pred|]; cbn [mbind option_bind]; [|done].
  assert (split_acc data split_idx y_pred key = None) as Hnone.
  { destruct Hsplit; [by apply split_acc_empty|by apply split_acc_missing]. }
  repeat (apply elem_of_cons in Hkey as [->|Hkey]); [| | |by apply elem_of_nil in Hkey].
  - by rewrite Hnone.
  - destruct (split_acc data split_idx y_pred "train"); cbn [mbind option_bind];
      [|done]. by rewrite Hnone.
  - destruct (split_acc data split_idx y_pred "train"); cbn [mbind option_bind];
      [|done].
    destruct (split_acc data split_idx y_pred "valid"); cbn [mbind option_bind];
      [|done]. by rewrite Hnone.
Qed.

Lemma test_empty_split_raises_witness :
  "valid" ∈ ["train"; "valid"; "test"] ∧
  ((∅ : gmap string (list nat)) !! "valid" = Some [] ∨
   (∅ : gmap string (list nat)) !! "valid" = None) ∧
  test (GCN_new 2 3 2 false zero_init) example_generator example_graph ∅ false = None.
Proof.
  assert ("valid" ∈ ["train"; "valid"; "test"]) as Hkey
    by (repeat constructor).
  assert ((∅ : gmap string (list nat)) !! "valid" = Some [] ∨
          (∅ : gmap string (list nat)) !! "valid" = None) as Hsplit
    by (right; reflexivity).
  split_and!; [exact Hkey|exact Hsplit|].
  exact (test_empty_split_raises _ _ _ _ false "valid" Hkey Hsplit).
Defined.

(** On a graph and splits that fit, the helper returns three accuracies
    between 0 and 1, leaves the module in evaluation mode, with the same
    layers, and draws nothing from the generator. *)
Theorem test_accuracies_bounded F H C N data split_idx train_idx m g :
  ready F H C N data split_idx train_idx → GCN_dims F H C m →
  ∃ tr va te m',
    test m g data split_idx false = Some (tr, va, te, m', g) ∧
    (0 <= tr <= 1)%R ∧ (0 <= va <= 1)%R ∧ (0 <= te <= 1)%R ∧
    eval_mode m' ∧ GCN_dims F H C m' ∧
    gcnlayers m' = gcnlayers m ∧ last_gcn m' = last_gcn m.
Proof.
  intros Hready Hdims.
  destruct (test_returns F H C N data split_idx train_idx m g Hready Hdims)
    as (tr & va & te & Htest & Btr & Bva & Bte).
  exists tr, va, te, (GCN_eval m).
  split; [done|]. split; [done|]. split; [done|]. split; [done|].
  split; [apply GCN_eval_eval_mode|]. split; [by apply GCN_train_dims|done].
Qed.

(** ** Sub-graph extraction followed by the forward pass *)

(** When the last of the K extracted nodes keeps an edge in each direction,
    the rebuilt adjacency is over K nodes and the forward pass on the
    extracted graph returns one row of C entries for each of the K nodes. *)
Theorem sub_graph_then_forward data K F H C self g :
  wf_Data data → K ≤ num_nodes data → 0 < H →
  GCN_dims F H C self → num_features data = F →
  training self = false ∨ K ≠ 1 →
  (∃ v, v < K ∧ (K - 1, v) ∈ entries (adj_t data)) →
  (∃ u, u < K ∧ (u, K - 1) ∈ entries (adj_t data)) →
  ∃ sg out self' g',
    sub_graph data K = Some sg ∧
    forward self g (x sg) (adj_t sg) = Some (out, self', g') ∧
    has_shape K C out.
Proof.
  intros Hwf HK HH Hdims HF Hmode (v & Hv & Hin1) (u & Hu & Hin2).
  pose proof (sub_graph_spec data K Hwf HK) as Hg. cbn zeta in Hg.
  set (kept := filter (fun e => e.1 < K ∧ e.2 < K) (entries (adj_t data))) in *.
  assert (Forall (fun e => e.1 < K ∧ e.2 < K) kept) as Hkept.
  { apply Forall_forall. intros e He. by apply list_elem_of_filter in He as [? _]. }
  assert (adj_over K (SparseTensor_new kept.*1 kept.*2 None)) as Hadj.
  { apply (rebuilt_adjacency_over K kept Hkept). right. split.
    - exists v. apply list_elem_of_filter. cbn. split; [lia|done].
    - exists u. apply list_elem_of_filter. cbn. split; [lia|done]. }
  eexists.
  edestruct (forward_returns F H C self g) as (e & self' & g' & Hfw & He & _);
    [exact HH|exact Hdims| |exact Hadj|exact Hmode|].
  2:{ eexists _, _, _. split; [exact Hg|]. split; [exact Hfw|].
      by destruct (return_embeds self). }
  split; cbn [x size0 size1]; [unfold arange; by rewrite length_seq|exact HF].
Qed.

Lemma sub_graph_then_forward_witness :
  let self := GCN_new 2 3 2 false zero_init in
  wf_Data example_graph ∧ 2 ≤ num_nodes example_graph ∧ 0 < 3 ∧
  GCN_dims 2 3 2 self ∧ num_features example_graph = 2 ∧
  (training self = false ∨ 2 ≠ 1) ∧
  (∃ v, v < 2 ∧ (2 - 1, v) ∈ entries (adj_t example_graph)) ∧
  (∃ u, u < 2 ∧ (u, 2 - 1) ∈ entries (adj_t example_graph)) ∧
  ∃ sg out self' g',
    sub_graph example_graph 2 = Some sg ∧
    forward self example_generator (x sg) (adj_t sg) = Some (out, self', g') ∧
    has_shape 2 2 out.
Proof.
  cbn zeta.
  assert (wf_Data example_graph) as Hwf by wf_Data_explicit.
  assert (2 ≤ num_nodes example_graph) as HK by (cbn; lia).
  assert (0 < 3) as HH by lia.
  assert (GCN_dims 2 3 2 (GCN_new 2 3 2 false zero_init)) as Hdims
    by (repeat split; reflexivity).
  assert (num_features example_graph = 2) as HF by reflexivity.
  assert (training (GCN_new 2 3 2 false zero_init) = false ∨ 2 ≠ 1) as Hmode
    by (right; lia).
  assert (∃ v, v < 2 ∧ (2 - 1, v) ∈ entries (adj_t example_graph)) as H1
    by (exists 0; split; [lia|cbn; repeat constructor]).
  assert (∃ u, u < 2 ∧ (u, 2 - 1) ∈ entries (adj_t example_graph)) as H2
    by (exists 0; split; [lia|cbn; repeat constructor]).
  split_and!; [exact Hwf|exact HK|exact HH|exact Hdims|exact HF|exact Hmode
              |exact H1|exact H2|].
  exact (sub_graph_then_forward example_graph 2 2 3 2 _ example_generator
           Hwf HK HH Hdims HF Hmode H1 H2).
Defined.

(** ** [reset_parameters] *)

(** [reset_parameters] initialises the four hidden convolutions and the four
    batch normalisations again and leaves the output layer [last_gcn] as it
    was: a trained output layer survives a reset.  Dimensions, modes and the
    flag are kept. *)
Theorem reset_parameters_keeps_last_gcn F H C self init :
  GCN_dims F H C self →
  let self' := reset_parameters self init in
  last_gcn self' = last_gcn self ∧
  GCN_dims F H C self' ∧
  training self' = training self ∧ return_embeds self' = return_embeds self ∧
  (∀ l c, gcnlayers self' !! l = Some c →
          lin_weight c = init l ∧ ∀ k, bias c k = 0%R) ∧
  (∀ bn, bn ∈ bns self' →
         num_batches_tracked bn = 0 ∧
         ∀ j, running_mean bn j = 0%R ∧ running_var bn j = 1%R ∧
              weight bn j = 1%R ∧ bn_bias bn j = 0%R).
Proof.
  intros Hdims.
  destruct (GCN_dims_inv _ _ _ _ Hdims)
    as (c1 & c2 & c3 & c4 & b1 & b2 & b3 & b4 & Hls & Hbs & Hc1 & Hc2 & Hc3 & Hc4
        & Hlast & Hb).
  apply Forall_cons in Hb as [[Hf1 Ht1] Hb].
  apply Forall_cons in Hb as [[Hf2 Ht2] Hb].
  apply Forall_cons in Hb as [[Hf3 Ht3] Hb].
  apply Forall_cons in Hb as [[Hf4 Ht4] _].
  cbn zeta. unfold reset_parameters. rewrite Hls, Hbs.
  cbn [imap fmap list_fmap gcnlayers bns last_gcn training return_embeds].
  split_and!; try done.
  - unfold GCN_dims, conv_dims in *. cbn. split_and!; try done; congruence.
  - intros l c Hl.
    destruct l as [|[|[|[|l]]]]; cbn in Hl; try done; by injection Hl as <-.
  - intros bn Hbn. repeat (apply elem_of_cons in Hbn as [->|Hbn]); try done.
    by apply elem_of_nil in Hbn.
Qed.

Lemma reset_parameters_keeps_last_gcn_witness :
  let self := GCN_new 2 3 2 false zero_init in
  let init := fun l j k => INR (l + j + k) in
  GCN_dims 2 3 2 self ∧
  last_gcn (reset_parameters self init) = last_gcn self ∧
  GCN_dims 2 3 2 (reset_parameters self init) ∧
  training (reset_parameters self init) = training self ∧
  return_embeds (reset_parameters self init) = return_embeds self ∧
  (∀ l c, gcnlayers (reset_parameters self init) !! l = Some c →
          lin_weight c = init l ∧ ∀ k, bias c k = 0%R) ∧
  (∀ bn, bn ∈ bns (reset_parameters self init) →
         num_batches_tracked bn = 0 ∧
         ∀ j, running_mean bn j = 0%R ∧ running_var bn j = 1%R ∧
              weight bn j = 1%R ∧ bn_bias bn j = 0%R).
Proof.
  cbn zeta.
  assert (GCN_dims 2 3 2 (GCN_new 2 3 2 false zero_init)) as Hdims
    by (repeat split; reflexivity).
  split; [exact Hdims|].
  exact (reset_parameters_keeps_last_gcn 2 3 2 _ (fun l j k => INR (l + j + k)) Hdims).
Defined.

(** ** What a forward pass in training mode changes *)

Lemma BatchNorm1d_forward_tracks bn t o bn' :
  bn_training bn = true → BatchNorm1d_forward bn t = Some (o, bn') →
  num_batches_tracked bn' = S (num_batches_tracked bn).
Proof.
  intros Htr. unfold BatchNorm1d_forward. rewrite Htr.
  cbn [track bn_training bn_num_features]. rewrite ?Htr.
  repeat case_decide; intros Hfw; try discriminate; by injection Hfw as _ <-.
Qed.

Lemma hidden_stage_training conv bn a t g o bn' g' :
  bn_training bn = true →
  hidden_stage conv bn true a t g = Some (o, bn', g') →
  offset g' = offset g + size0 o * size1 o ∧
  bernoulli g' = bernoulli g ∧
  num_batches_tracked bn' = S (num_batches_tracked bn).
Proof.
  intros Htr. unfold hidden_stage.
  destruct (GCNConv_forward conv t a) as [t1|]; cbn [mbind option_bind]; [|done].
  destruct (BatchNorm1d_forward bn t1) as [[t2 bn2]|] eqn:Hbn;
    cbn [mbind option_bind]; [|done].
  intros Hst. injection Hst as <- <- <-. cbn.
  split_and!; [done|done|]. by eapply BatchNorm1d_forward_tracks.
Qed.

Lemma forward_training_state F H C self g t a N :
  0 < H → GCN_dims F H C self → has_shape N F t → adj_over N a →
  training self = true → N ≠ 1 →
  ∃ out self' g',
    forward self g t a = Some (out, self', g') ∧
    offset g' = offset g + 4 * (N * H) ∧
    bernoulli g' = bernoulli g ∧
    num_batches_tracked <$> bns self' = (S ∘ num_batches_tracked) <$> bns self ∧
    gcnlayers self' = gcnlayers self ∧ last_gcn self' = last_gcn self.
Proof.
  intros HH Hdims Ht Ha Htrain HN.
  destruct (GCN_dims_inv _ _ _ _ Hdims)
    as (c1 & c2 & c3 & c4 & b1 & b2 & b3 & b4 & Hls & Hbs & Hc1 & Hc2 & Hc3 & Hc4
        & Hlast & Hb).
  rewrite forward_unrolled by (by rewrite ?Hls, ?Hbs).
  unfold forward_spec. rewrite Hls, Hbs, Htrain. rewrite Htrain in Hb.
  apply Forall_cons in Hb as [[Hf1 Ht1] Hb].
  apply Forall_cons in Hb as [[Hf2 Ht2] Hb].
  apply Forall_cons in Hb as [[Hf3 Ht3] Hb].
  apply Forall_cons in Hb as [[Hf4 Ht4] _].
  destruct (hidden_stage_shape c1 b1 true a t g N F H)
    as (t1 & b1' & g1 & Hs1 & [S10 S11] & _); try done; [by right|].
  destruct (hidden_stage_training _ _ _ _ _ _ _ _ Ht1 Hs1) as (O1 & B1 & T1).
  rewrite Hs1; cbn [mbind option_bind].
  destruct (hidden_stage_shape c2 b2 true a t1 g1 N H H)
    as (t2 & b2' & g2 & Hs2 & [S20 S21] & _); try done; [by right|].
  destruct (hidden_stage_training _ _ _ _ _ _ _ _ Ht2 Hs2) as (O2 & B2 & T2).
  rewrite Hs2; cbn [mbind option_bind].
  destruct (hidden_stage_shape c3 b3 true a t2 g2 N H H)
    as (t3 & b3' & g3 & Hs3 & [S30 S31] & _); try done; [by right|].
  destruct (hidden_stage_training _ _ _ _ _ _ _ _ Ht3 Hs3) as (O3 & B3 & T3).
  rewrite Hs3; cbn [mbind option_bind].
  destruct (hidden_stage_shape c4 b4 true a t3 g3 N H H)
    as (t4 & b4' & g4 & Hs4 & [S40 S41] & _); try done; [by right|].
  destruct (hidden_stage_training _ _ _ _ _ _ _ _ Ht4 Hs4) as (O4 & B4 & T4).
  rewrite Hs4; cbn [mbind option_bind].
  injection Hlast as Hli Hlo.
  destruct (GCNConv_forward_shape (last_gcn self) t4 a N) as (e & -> & He);
    [by rewrite Hli|done|].
  cbn [mbind option_bind]. eexists _, _, _. split; [done|].
  cbn [bns gcnlayers last_gcn fmap list_fmap compose].
  rewrite T1, T2, T3, T4. split_and!; try done.
  - rewrite O4, O3, O2, O1, S10, S11, S20, S21, S30, S31, S40, S41. lia.
  - congruence.
Qed.

(** In training mode a forward pass is not pure: it makes one Bernoulli draw
    per hidden activation, 4*N*H in all, and every batch normalisation
    counts one more batch; the convolutions are left as they are. *)
Theorem forward_training_effects F H C self g t a N :
  0 < H → GCN_dims F H C self → has_shape N F t → adj_over N a →
  training self = true → N ≠ 1 →
  ∃ out self' g',
    forward self g t a = Some (out, self', g') ∧
    offset g' = offset g + 4 * (N * H) ∧
    bernoulli g' = bernoulli g ∧
    num_batches_tracked <$> bns self' = (S ∘ num_batches_tracked) <$> bns self ∧
    gcnlayers self' = gcnlayers self ∧ last_gcn self' = last_gcn self.
Proof. apply forward_training_state. Qed.

Lemma forward_training_effects_witness :
  let self := GCN_new 2 3 2 false zero_init in
  let t := x example_graph in
  let a := adj_t example_graph in
  0 < 3 ∧ GCN_dims 2 3 2 self ∧ has_shape 3 2 t ∧ adj_over 3 a ∧
  training self = true ∧ 3 ≠ 1 ∧
  ∃ out self' g',
    forward self example_generator t a = Some (out, self', g') ∧
    offset g' = offset example_generator + 4 * (3 * 3) ∧
    bernoulli g' = bernoulli example_generator ∧
    num_batches_tracked <$> bns self' = (S ∘ num_batches_tracked) <$> bns self ∧
    gcnlayers self' = gcnlayers self ∧ last_gcn self' = last_gcn self.
Proof.
  cbn zeta.
  assert (0 < 3) as HH by lia.
  assert (GCN_dims 2 3 2 (GCN_new 2 3 2 false zero_init)) as Hdims
    by (repeat split; reflexivity).
  assert (has_shape 3 2 (x example_graph)) as Ht by (split; reflexivity).
  assert (adj_over 3 (adj_t example_graph)) as Ha by adj_over_explicit.
  assert (training (GCN_new 2 3 2 false zero_init) = true) as Htr by reflexivity.
  assert (3 ≠ 1) as HN by lia.
  split_and!; [exact HH|exact Hdims|exact Ht|exact Ha|exact Htr|exact HN|].
  exact (forward_training_effects 2 3 2 _ example_generator _ _ 3
           HH Hdims Ht Ha Htr HN).
Defined.

(** ** The output of the module is a matrix of log-probabilities *)

Lemma sum_list_R_ge_elem (l : list R) v :
  Forall (fun w => 0 <= w)%R l → v ∈ l → (v <= sum_list_R l)%R.
Proof.
  unfold sum_list_R. induction 1 as [|w l Hw Hl IH]; intros Hin.
  { by apply elem_of_nil in Hin. }
  assert (0 <= foldr Rplus 0 l)%R as Hpos.
  { clear IH Hin. induction Hl as [|u l Hu _ IH]; cbn; lra. }
  cbn. apply elem_of_cons in Hin as [->|Hin]; [lra|].
  specialize (IH Hin). lra.
Qed.

Lemma sum_n_ge_term n (f : nat → R) k :
  (∀ j, 0 <= f j)%R → k < n → (f k <= sum_n n f)%R.
Proof.
  intros Hf Hk. apply sum_list_R_ge_elem.
  - apply Forall_fmap, Forall_forall. intros j _. apply Hf.
  - apply list_elem_of_fmap_2, elem_of_seq. lia.
Qed.

Lemma LogSoftmax_nonpositive t i k :
  k < size1 t → (item (LogSoftmax t) i k <= 0)%R.
Proof.
  intros Hk. cbn [LogSoftmax item].
  set (S := sum_n (size1 t) (fun j => exp (item t i j))).
  assert (exp (item t i k) <= S)%R as Hle.
  { apply (sum_n_ge_term _ (fun j => exp (item t i j))); [|done].
    intros j. left. apply exp_pos. }
  pose proof (exp_pos (item t i k)) as Hpos.
  assert (ln (exp (item t i k)) <= ln S)%R as Hln.
  { destruct Hle as [Hlt| ->]; [left; by apply ln_increasing|right; done]. }
  rewrite ln_exp in Hln. lra.
Qed.

(** Built with [return_embeds=False], the module returns log-probabilities:
    no entry of the output is positive, and the exponential of every entry
    is at most 1. *)
Theorem forward_log_probabilities F H C self g t a N :
  0 < H → GCN_dims F H C self → has_shape N F t → adj_over N a →
  training self = false ∨ N ≠ 1 → return_embeds self = false →
  ∃ out self' g',
    forward self g t a = Some (out, self', g') ∧ has_shape N C out ∧
    ∀ i k, k < C → (item out i k <= 0)%R ∧ (exp (item out i k) <= 1)%R.
Proof.
  intros HH Hdims Ht Ha Hmode Hre.
  destruct (forward_returns F H C self g t a N HH Hdims Ht Ha Hmode)
    as (e & self' & g' & Hfw & [He0 He1] & _).
  rewrite Hre in Hfw. eexists _, _, _. split; [exact Hfw|]. split; [done|].
  intros i k Hk.
  assert (item (LogSoftmax e) i k <= 0)%R as Hle
    by (apply LogSoftmax_nonpositive; by rewrite He1).
  split; [done|]. rewrite <-exp_0.
  destruct Hle as [Hlt|Heq]; [left; by apply exp_increasing|right; by rewrite Heq].
Qed.

Lemma forward_log_probabilities_witness :
  let self := GCN_eval (GCN_new 2 3 2 false zero_init) in
  let t := x example_graph in
  let a := adj_t example_graph in
  0 < 3 ∧ GCN_dims 2 3 2 self ∧ has_shape 3 2 t ∧ adj_over 3 a ∧
  (training self = false ∨ 3 ≠ 1) ∧ return_embeds self = false ∧
  ∃ out self' g',
    forward self example_generator t a = Some (out, self', g') ∧
    has_shape 3 2 out ∧
    ∀ i k, k < 2 → (item out i k <= 0)%R ∧ (exp (item out i k) <= 1)%R.
Proof.
  cbn zeta.
  assert (0 < 3) as HH by lia.
  assert (GCN_dims 2 3 2 (GCN_eval (GCN_new 2 3 2 false zero_init))) as Hdims
    by (repeat split; reflexivity).
  assert (has_shape 3 2 (x example_graph)) as Ht by (split; reflexivity).
  assert (adj_over 3 (adj_t example_graph)) as Ha by adj_over_explicit.
  assert (training (GCN_eval (GCN_new 2 3 2 false zero_init)) = false ∨ 3 ≠ 1)
    as Hmode by (left; reflexivity).
  assert (return_embeds (GCN_eval (GCN_new 2 3 2 false zero_init)) = false) as Hre
    by reflexivity.
  split_and!; [exact HH|exact Hdims|exact Ht|exact Ha|exact Hmode|exact Hre|].
  exact (forward_log_probabilities 2 3 2 _ example_generator _ _ 3
           HH Hdims Ht Ha Hmode Hre).
Defined.

Lemma sum_n_nonneg n (f : nat → R) :
  (∀ k, k < n → (0 <= f k)%R) → (0 <= sum_n n f)%R.
Proof.
  intros Hf. unfold sum_n.
  assert (Forall (fun v => 0 <= v)%R (f <$> seq 0 n)) as Hall.
  { apply Forall_fmap, Forall_forall. intros k Hk%elem_of_seq. apply Hf. lia. }
  unfold sum_list_R. induction Hall as [|v l Hv _ IH]; cbn; lra.
Qed.

(** The negative log-likelihood of log-probabilities is not negative. *)
Lemma nll_loss_nonneg (input : Tensor) (target : list nat) loss :
  (∀ i k, k < size1 input → (item input i k <= 0)%R) →
  nll_loss input target = Some loss → (0 <= loss)%R.
Proof.
  intros Hneg. unfold nll_loss. case_decide as Hok; [|done].
  destruct Hok as [Hlen Hall]. intros Hl. injection Hl as <-.
  assert (0 <= sum_n (size0 input) (fun i => - item input i (target !!! i)))%R as Hsum.
  { apply sum_n_nonneg. intros i Hi.
    assert (item input i (target !!! i) <= 0)%R; [|lra].
    apply Hneg. rewrite Forall_forall in Hall. apply Hall.
    apply list_elem_of_lookup_total_2. lia. }
  pose proof (pos_INR (size0 input)) as Hn.
  destruct Hn as [Hpos|Hz].
  - unfold Rdiv. pose proof (Rinv_0_lt_compat _ Hpos). nra.
  - rewrite <-Hz. unfold Rdiv. rewrite Rinv_0. lra.
Qed.

(** ** Malformed inputs *)



(** ** The training loop *)

Section TrainingLoop.

Context {Optimizer : Type}.
Variable Adam : GCN -> R -> Optimizer.
Variable backward_step :
  Optimizer -> GCN -> Generator -> Data -> list nat -> GCN -> Optimizer * GCN.
Variable data : Data.
Variable split_idx : gmap string (list nat).
Variable train_idx : list nat.

Local Abbreviation body := (loop_body backward_step data split_idx train_idx).
Local Abbreviation loop := (training_loop backward_step data split_idx train_idx).

(** What one epoch does to the variables of the script. *)
Lemma loop_body_inv epoch (st st' : @Script Optimizer) :
  body epoch st = Some st' →
  ∃ loss train_acc valid_acc test_acc m3,
    model st' = model st ∧
    stdout st' = stdout st ++ [mkLine epoch loss train_acc valid_acc test_acc] ∧
    model st < length (heap st) ∧
    training m3 = false ∧
    if Rlt_dec (best_valid_acc st) valid_acc
    then heap st' = <[model st:=m3]> (heap st) ++ [m3] ∧
         best_model st' = Some (length (heap st)) ∧
         best_valid_acc st' = valid_acc
    else heap st' = <[model st:=m3]> (heap st) ∧
         best_model st' = best_model st ∧
         best_valid_acc st' = best_valid_acc st.
Proof.
  unfold loop_body. intros Hbody.
  destruct (heap st !! model st) as [m|] eqn:Hm; cbn [mbind option_bind] in Hbody;
    [|done].
  apply lookup_lt_Some in Hm as Hlt.
  destruct (forward (GCN_train true m) (generator st) (x data) (adj_t data))
    as [[[out m1] g1]|]; cbn [mbind option_bind] in Hbody; [|done].
  destruct (index_rows out train_idx) as [out_train|];
    cbn [mbind option_bind] in Hbody; [|done].
  destruct (gather (y data) train_idx) as [y_train|];
    cbn [mbind option_bind] in Hbody; [|done].
  destruct (nll_loss out_train y_train) as [loss|];
    cbn [mbind option_bind] in Hbody; [|done].
  destruct (backward_step (optimizer st) (GCN_train true m) (generator st) data
              train_idx m1) as [opt m2].
  destruct (test m2 g1 data split_idx false) as [[[[[tr va] te] m3] g3]|] eqn:Htest;
    cbn [mbind option_bind] in Hbody; [|done].
  exists loss, tr, va, te, m3.
  assert (training m3 = false) as Hm3.
  { unfold test in Htest.
    pose proof (forward_eval (GCN_eval m2) g1 (x data) (adj_t data)
                  (GCN_eval_eval_mode m2)) as Hev. revert Hev.
    destruct (forward (GCN_eval m2) g1 (x data) (adj_t data))
      as [[[o s] g']|]; cbn [mbind option_bind] in Htest; [|done].
    intros (-> & _ & _).
    destruct (argmax o); cbn [mbind option_bind] in Htest; [|done].
    destruct (split_acc data split_idx l "train");
      cbn [mbind option_bind] in Htest; [|done].
    destruct (split_acc data split_idx l "valid");
      cbn [mbind option_bind] in Htest; [|done].
    destruct (split_acc data split_idx l "test");
      cbn [mbind option_bind] in Htest; [|done].
    by injection Htest as _ _ _ <- _. }
  destruct (Rlt_dec (best_valid_acc st) va).
  - unfold deepcopy in Hbody.
    rewrite list_lookup_insert_eq in Hbody by done.
    cbn [mbind option_bind] in Hbody. injection Hbody as <-. cbn.
    rewrite length_insert. by split_and!.
  - injection Hbody as <-. cbn. by split_and!.
Qed.

Lemma for_each_app {S} (l1 l2 : list nat) (f : nat → S → option S) st :
  for_each (l1 ++ l2) f st = st' ← for_each l1 f st; for_each l2 f st'.
Proof.
  revert st. induction l1 as [|i l1 IH]; intros st; cbn; [done|].
  destruct (f i st) as [st1|]; cbn; [apply IH|done].
Qed.

Lemma Rmax_update (b v : R) : (if Rlt_dec b v then v else b) = Rmax b v.
Proof. unfold Rmax. destruct (Rlt_dec b v), (Rle_dec b v); lra. Qed.

(** What a run of the loop over the epochs [s], ..., [s+n-1] does to the
    variables of the script. *)
Lemma loop_run_inv n s (st st' : @Script Optimizer) :
  for_each (seq s n) body st = Some st' →
  ∃ new,
    stdout st' = stdout st ++ new ∧
    line_epoch <$> new = seq s n ∧
    model st' = model st ∧
    best_valid_acc st' = foldl Rmax (best_valid_acc st) (line_valid <$> new) ∧
    (Forall (fun l => line_valid l <= best_valid_acc st)%R new →
     best_model st' = best_model st) ∧
    length (heap st) ≤ length (heap st') ∧
    (∀ a, a ≠ model st → a < length (heap st) → heap st' !! a = heap st !! a).
Proof.
  revert s st. induction n as [|n IH]; intros s st Hrun; cbn in Hrun.
  { injection Hrun as <-. exists []. rewrite app_nil_r. by split_and!. }
  destruct (body s st) as [st1|] eqn:Hbody; cbn [mbind option_bind] in Hrun; [|done].
  destruct (loop_body_inv _ _ _ Hbody)
    as (loss & tr & va & te & m3 & Hmodel & Hout & Hlt & _ & Hcheck).
  destruct (IH _ _ Hrun) as (new & Hout' & Hep & Hmodel' & Hbest & Hnone & Hlen & Hheap).
  exists (mkLine s loss tr va te :: new).
  assert (best_valid_acc st1 = Rmax (best_valid_acc st) va) as Hb1.
  { rewrite <-Rmax_update. by destruct (Rlt_dec (best_valid_acc st) va), Hcheck as (_ & _ & ->). }
  assert (length (heap st) ≤ length (heap st1) ∧
          ∀ a, a ≠ model st → a < length (heap st) → heap st1 !! a = heap st !! a)
    as [Hlen1 Hheap1].
  { destruct (Rlt_dec (best_valid_acc st) va), Hcheck as (-> & _ & _).
    - rewrite length_app, length_insert; cbn. split; [lia|]. intros a Ha Hlta.
      rewrite lookup_app_l by (by rewrite length_insert).
      by rewrite list_lookup_insert_ne.
    - rewrite length_insert. split; [lia|]. intros a Ha Hlta.
      by rewrite list_lookup_insert_ne. }
  split_and!.
  - rewrite Hout', Hout, <-app_assoc. done.
  - cbn. by rewrite Hep.
  - congruence.
  - cbn. by rewrite Hbest, Hb1.
  - intros Hall. apply Forall_cons in Hall as [Hva Hall]. cbn in Hva.
    destruct (Rlt_dec (best_valid_acc st) va) as [?|_]; [lra|].
    destruct Hcheck as (_ & Hbm & Hbv). rewrite <-Hbm. apply Hnone.
    by rewrite Hbv.
  - lia.
  - intros a Ha Hlta. rewrite Hheap; [by apply Hheap1|by rewrite Hmodel|lia].
Qed.

(** On a graph and splits that fit, one epoch goes through. *)
Lemma loop_body_total F H C N epoch (st : @Script Optimizer) :
  ready F H C N data split_idx train_idx → keeps_dims F H C backward_step →
  model_dims F H C st →
  ∃ st', body epoch st = Some st' ∧ model_dims F H C st'.
Proof.
  intros Hready Hkeeps (m & Hm & Hdims).
  pose proof Hready as (HH & HC & HN & Hx & Hadj & Hy & Hlab & Htrain & Hsplits).
  apply Forall_cons in Hsplits as [(itr & Htr & [Hne Hidx]) _].
  assert (itr = train_idx) as -> by congruence.
  unfold loop_body. rewrite Hm; cbn [mbind option_bind].
  destruct (forward_returns F H C (GCN_train true m) (generator st) (x data)
              (adj_t data) N)
    as (e & m1 & g1 & -> & He & _ & Hdims1 & _);
    [done|by apply GCN_train_dims|done|done|by right|].
  cbn [mbind option_bind].
  set (out := if return_embeds (GCN_train true m) then e else LogSoftmax e).
  assert (has_shape N C out) as [Ho0 Ho1] by (unfold out; by destruct (return_embeds _)).
  unfold index_rows. rewrite decide_True by (by rewrite Ho0).
  cbn [mbind option_bind].
  destruct (gather_within (y data) train_idx) as (yt & -> & Hyt & Hin);
    [by rewrite Hy|].
  cbn [mbind option_bind]. unfold nll_loss.
  rewrite decide_True.
  2:{ cbn [size0 size1]. split; [done|]. rewrite Ho1. apply Forall_forall.
      intros c Hc%Hin. rewrite Forall_forall in Hlab. by apply Hlab. }
  cbn [mbind option_bind].
  pose proof (Hkeeps (optimizer st) (GCN_train true m) (generator st) data
                train_idx m1 Hdims1) as Hdims2.
  destruct (backward_step (optimizer st) (GCN_train true m) (generator st) data
              train_idx m1) as [opt m2]. cbn [snd] in Hdims2.
  destruct (test_returns F H C N data split_idx train_idx m2 g1 Hready Hdims2)
    as (tr & va & te & -> & _). cbn [mbind option_bind].
  apply lookup_lt_Some in Hm as Hlt.
  assert (GCN_dims F H C (GCN_eval m2)) as Hdims3 by (by apply GCN_train_dims).
  destruct (Rlt_dec (best_valid_acc st) va).
  - unfold deepcopy. rewrite list_lookup_insert_eq by done. cbn [mbind option_bind].
    eexists; split; [done|]. exists (GCN_eval m2). cbn. split; [|done].
    rewrite lookup_app_l by (by rewrite length_insert).
    by rewrite list_lookup_insert_eq.
  - eexists; split; [done|]. exists (GCN_eval m2). cbn. split; [|done].
    by rewrite list_lookup_insert_eq.
Qed.

Lemma loop_total F H C N n s (st : @Script Optimizer) :
  ready F H C N data split_idx train_idx → keeps_dims F H C backward_step →
  model_dims F H C st →
  ∃ st', for_each (seq s n) body st = Some st' ∧ model_dims F H C st'.
Proof.
  intros Hready Hkeeps. revert s st.
  induction n as [|n IH]; intros s st Hst; cbn [seq for_each].
  { by exists st. }
  destruct (loop_body_total F H C N s st Hready Hkeeps Hst) as (st1 & -> & Hst1).
  cbn [mbind option_bind]. by apply IH.
Qed.

(** The script starts the loop with a module of the dimensions it was
    built with. *)
Lemma start_model_dims dev num_classes init init' g :
  model_dims (num_features data) (hidden_dim (args dev)) num_classes
             (start Adam (args dev) data num_classes init init' g).
Proof.
  eexists. split; [reflexivity|]. apply reset_parameters_dims, GCN_new_dims.
Qed.

(** C8. Before the loop [best_model] is unset and [best_valid_acc] is zero,
    and the budget is 200 epochs.  In every epoch the snapshot is replaced,
    by a copy of the current module at a fresh address, and the best accuracy
    updated, exactly when the validation accuracy of the epoch strictly
    exceeds the best so far; otherwise both are kept.  The loop has no early
    exit: whenever it returns it has reported the epochs 1, ..., n in order,
    and on a graph and splits that fit it does return.  In particular the
    run of the script, from the variables it sets before the loop, returns
    after reporting the 200 epochs 1, ..., 200. *)
Theorem training_loop_checkpoints :
  (∀ dev num_classes init init' g,
     let st0 := start Adam (args dev) data num_classes init init' g in
     best_model st0 = None ∧ best_valid_acc st0 = 0%R ∧ stdout st0 = [] ∧
     epochs (args dev) = 200) ∧
  (∀ epoch (st st' : @Script Optimizer),
     body epoch st = Some st' →
     ∃ line,
       stdout st' = stdout st ++ [line] ∧ line_epoch line = epoch ∧
       ((best_valid_acc st < line_valid line)%R →
        best_valid_acc st' = line_valid line ∧
        ∃ copy m, best_model st' = Some copy ∧
                  copy = length (heap st) ∧ copy ≠ model st' ∧
                  heap st' !! copy = Some m ∧ heap st' !! model st' = Some m) ∧
       (¬ (best_valid_acc st < line_valid line)%R →
        best_valid_acc st' = best_valid_acc st ∧ best_model st' = best_model st)) ∧
  (∀ n (st st' : @Script Optimizer),
     loop n st = Some st' →
     ∃ new, stdout st' = stdout st ++ new ∧ line_epoch <$> new = seq 1 n) ∧
  (∀ F H C N n (st : @Script Optimizer),
     ready F H C N data split_idx train_idx → keeps_dims F H C backward_step →
     model_dims F H C st →
     ∃ st', loop n st = Some st') ∧
  (∀ dev num_classes init init' g N,
     ready (num_features data) (hidden_dim (args dev)) num_classes N
           data split_idx train_idx →
     keeps_dims (num_features data) (hidden_dim (args dev)) num_classes
                backward_step →
     ∃ st', loop (epochs (args dev))
                 (start Adam (args dev) data num_classes init init' g) = Some st' ∧
            line_epoch <$> stdout st' = seq 1 200).
Proof.
  split_and!.
  - done.
  - intros epoch st st' Hbody.
    destruct (loop_body_inv _ _ _ Hbody)
      as (loss & tr & va & te & m3 & Hmodel & Hout & Hlt & _ & Hcheck).
    exists (mkLine epoch loss tr va te). cbn [line_epoch line_valid].
    split_and!; [done|done| |].
    + intros Hbetter. destruct (Rlt_dec (best_valid_acc st) va) as [_|?]; [|done].
      destruct Hcheck as (Hheap & Hbm & Hbv). split; [done|].
      exists (length (heap st)), m3. rewrite Hmodel, Hheap. split_and!; try done.
      * lia.
      * rewrite lookup_app_r by (by rewrite length_insert).
        by rewrite length_insert, Nat.sub_diag.
      * rewrite lookup_app_l by (by rewrite length_insert).
        by rewrite list_lookup_insert_eq.
    + intros Hnot. destruct (Rlt_dec (best_valid_acc st) va) as [?|_]; [done|].
      by destruct Hcheck as (_ & ? & ?).
  - intros n st st' Hrun.
    destruct (loop_run_inv _ _ _ _ Hrun) as (new & ? & ? & _). by exists new.
  - intros F H C N n st Hready Hkeeps Hst.
    destruct (loop_total F H C N n 1 st Hready Hkeeps Hst) as (st' & ? & _).
    by exists st'.
  - intros dev num_classes init init' g N Hready Hkeeps.
    destruct (loop_total _ _ _ N (epochs (args dev)) 1 _ Hready Hkeeps
                (start_model_dims dev num_classes init init' g))
      as (st' & Hrun & _).
    exists st'. split; [exact Hrun|].
    destruct (loop_run_inv _ _ _ _ Hrun) as (new & Hout & Hep & _).
    rewrite Hout. exact Hep.
Qed.

(** C10. If the loop returns and no epoch of the run reported a validation
    accuracy above zero, then [best_model], unset before the loop, is still
    unset after it, although all the epochs were run. *)
Theorem best_model_stays_unset n (st st' : @Script Optimizer) :
  loop n st = Some st' →
  best_model st = None → best_valid_acc st = 0%R →
  (∀ line, line ∈ drop (length (stdout st)) (stdout st') →
           ¬ (0 < line_valid line)%R) →
  best_model st' = None ∧
  line_epoch <$> drop (length (stdout st)) (stdout st') = seq 1 n.
Proof.
  intros Hrun Hnone Hzero Hvalid.
  destruct (loop_run_inv _ _ _ _ Hrun) as (new & Hout & Hep & _ & _ & Hkeep & _).
  rewrite Hout, drop_app_length in Hvalid |- *. split; [|done].
  rewrite <-Hnone. apply Hkeep, Forall_forall. intros line Hline%Hvalid. lra.
Qed.

Lemma foldl_Rmax_ge (b : R) (vs : list R) :
  (b <= foldl Rmax b vs)%R ∧ Forall (fun v => v <= foldl Rmax b vs)%R vs.
Proof.
  revert b. induction vs as [|v vs IH]; intros b; cbn.
  { split; [lra|constructor]. }
  destruct (IH (Rmax b v)) as (Hb & Hall).
  pose proof (Rmax_l b v). pose proof (Rmax_r b v).
  split; [lra|]. constructor; [lra|done].
Qed.

(** The snapshot left by the loop is a separate object that holds the
    module as it stood at the end of one epoch k: the first epoch that
    reported the best validation accuracy of the run.  Every earlier epoch
    reported strictly less, no later epoch reported more, and the later
    epochs, which train the model further, leave the snapshot alone. *)
Theorem snapshot_of_best_epoch n (st0 st : @Script Optimizer) a :
  loop n st0 = Some st → best_model st0 = None → best_model st = Some a →
  ∃ k st_k line,
    1 ≤ k ≤ n ∧
    loop k st0 = Some st_k ∧
    for_each (seq (S k) (n - k)) body st_k = Some st ∧
    last (stdout st_k) = Some line ∧ line_epoch line = k ∧
    line_valid line = best_valid_acc st ∧
    a ≠ model st ∧ a < length (heap st) ∧
    heap st !! a = heap st_k !! model st_k ∧
    line ∈ drop (length (stdout st0)) (stdout st) ∧
    (∀ l, l ∈ drop (length (stdout st0)) (stdout st) →
          (line_epoch l < k → (line_valid l < line_valid line)%R) ∧
          (k < line_epoch l → (line_valid l <= line_valid line)%R)).
Proof.
  revert st. induction n as [|n IH]; intros st Hrun Hnone Ha.
  { injection Hrun as <-. congruence. }
  unfold training_loop in Hrun. rewrite seq_S, for_each_app in Hrun.
  destruct (for_each (seq 1 n) body st0) as [st_n|] eqn:Hn;
    cbn [mbind option_bind for_each] in Hrun; [|done].
  destruct (body (1 + n) st_n) as [st1|] eqn:Hbody;
    cbn [mbind option_bind] in Hrun; [|done].
  injection Hrun as ->.
  destruct (loop_body_inv _ _ _ Hbody)
    as (loss & tr & va & te & m3 & Hmodel & Hout & Hlt & _ & Hcheck).
  destruct (loop_run_inv _ _ _ _ Hn) as (new & Hnew & Hep & _ & Hbest & _).
  assert (∀ l, l ∈ new → line_epoch l ≤ n) as Hepochs.
  { intros l Hl. assert (line_epoch l ∈ seq 1 n) as Hin.
    { rewrite <-Hep. by apply list_elem_of_fmap_2. }
    apply elem_of_seq in Hin. lia. }
  assert (drop (length (stdout st0)) (stdout st)
          = new ++ [mkLine (1 + n) loss tr va te]) as Hdrop.
  { by rewrite Hout, Hnew, <-app_assoc, drop_app_length. }
  destruct (Rlt_dec (best_valid_acc st_n) va) as [Hbetter|Hnot].
  - destruct Hcheck as (Hheap & Hbm & Hbv).
    assert (a = length (heap st_n)) as -> by congruence.
    destruct (foldl_Rmax_ge (best_valid_acc st0) (line_valid <$> new)) as [_ Hall].
    rewrite <-Hbest, Forall_fmap, Forall_forall in Hall.
    exists (S n), st, (mkLine (1 + n) loss tr va te).
    rewrite Nat.sub_diag. cbn [seq for_each line_epoch line_valid].
    unfold training_loop. rewrite seq_S, for_each_app, Hn.
    cbn [mbind option_bind for_each]. rewrite Hbody. cbn [mbind option_bind].
    rewrite Hdrop.
    rewrite Hout, last_snoc, Hmodel, Hheap, length_app, length_insert.
    split_and!; try done; try lia.
    + cbn; lia.
    + rewrite lookup_app_r by (by rewrite length_insert).
      rewrite length_insert, Nat.sub_diag.
      rewrite lookup_app_l by (by rewrite length_insert).
      by rewrite list_lookup_insert_eq.
    + apply elem_of_app. right. apply list_elem_of_here.
    + intros l [Hl|Hl]%elem_of_app.
      * split.
        -- intros _. specialize (Hall l Hl). cbn in Hall. lra.
        -- intros Hk. specialize (Hepochs l Hl). lia.
      * apply list_elem_of_singleton in Hl as ->. cbn [line_epoch line_valid].
        split; intros ?; lia.
  - destruct Hcheck as (Hheap & Hbm & Hbv).
    destruct (IH st_n Hn Hnone ltac:(congruence))
      as (k & st_k & line & Hk & Hrunk & Hrest & Hlast & Hek & Hval & Hne & Hlta
          & Hsnap & Hline & Hothers).
    rewrite Hnew, drop_app_length in Hline, Hothers.
    exists k, st_k, line.
    replace (S n - k) with (S (n - k)) by lia.
    rewrite seq_S, for_each_app, Hrest. cbn [mbind option_bind for_each].
    replace (S k + (n - k)) with (1 + n) by lia. rewrite Hbody.
    cbn [mbind option_bind].
    rewrite Hdrop, Hmodel, Hheap, length_insert, Hbv.
    split_and!; try done; try lia.
    + rewrite list_lookup_insert_ne by done. done.
    + apply elem_of_app. by left.
    + intros l [Hl|Hl]%elem_of_app; [by apply Hothers|].
      apply list_elem_of_singleton in Hl as ->. cbn [line_epoch line_valid].
      split; [intros ?; lia|]. intros _. rewrite Hval. lra.
Qed.

(** The calls one epoch makes, in order. *)
Lemma loop_body_steps epoch (st st' : @Script Optimizer) :
  body epoch st = Some st' →
  ∃ m out m1 g1 loss tr va te m3 g3,
    heap st !! model st = Some m ∧
    forward (GCN_train true m) (generator st) (x data) (adj_t data)
      = Some (out, m1, g1) ∧
    test (backward_step (optimizer st) (GCN_train true m) (generator st) data
            train_idx m1).2 g1 data split_idx false = Some (tr, va, te, m3, g3) ∧
    stdout st' = stdout st ++ [mkLine epoch loss tr va te] ∧
    model st' = model st ∧
    heap st' !! model st' = Some m3 ∧
    generator st' = g3.
Proof.
  unfold loop_body. intros Hbody.
  destruct (heap st !! model st) as [m|] eqn:Hm; cbn [mbind option_bind] in Hbody;
    [|done].
  apply lookup_lt_Some in Hm as Hlt.
  destruct (forward (GCN_train true m) (generator st) (x data) (adj_t data))
    as [[[out m1] g1]|] eqn:Hfw; cbn [mbind option_bind] in Hbody; [|done].
  destruct (index_rows out train_idx) as [out_train|];
    cbn [mbind option_bind] in Hbody; [|done].
  destruct (gather (y data) train_idx) as [y_train|];
    cbn [mbind option_bind] in Hbody; [|done].
  destruct (nll_loss out_train y_train) as [loss|];
    cbn [mbind option_bind] in Hbody; [|done].
  destruct (backward_step (optimizer st) (GCN_train true m) (generator st) data
              train_idx m1) as [opt m2] eqn:Hstep.
  destruct (test m2 g1 data split_idx false) as [[[[[tr va] te] m3] g3]|] eqn:Htest;
    cbn [mbind option_bind] in Hbody; [|done].
  exists m, out, m1, g1, loss, tr, va, te, m3, g3. rewrite Hstep. cbn [snd].
  destruct (Rlt_dec (best_valid_acc st) va).
  - unfold deepcopy in Hbody.
    rewrite list_lookup_insert_eq in Hbody by done.
    cbn [mbind option_bind] in Hbody. injection Hbody as <-.
    cbn [heap model stdout generator].
    rewrite lookup_app_l by (by rewrite length_insert).
    rewrite list_lookup_insert_eq by done. by split_and!.
  - injection Hbody as <-. cbn [heap model stdout generator].
    rewrite list_lookup_insert_eq by done. by split_and!.
Qed.

Lemma foldl_Rmax_bounds (b : R) (vs : list R) :
  (b <= foldl Rmax b vs)%R ∧
  Forall (fun v => v <= foldl Rmax b vs)%R vs ∧
  (foldl Rmax b vs = b ∨ foldl Rmax b vs ∈ vs).
Proof.
  revert b. induction vs as [|v vs IH]; intros b; cbn.
  { split_and!; [lra|constructor|by left]. }
  destruct (IH (Rmax b v)) as (Hb & Hall & Hatt).
  pose proof (Rmax_l b v). pose proof (Rmax_r b v).
  split_and!.
  - lra.
  - constructor; [lra|done].
  - destruct Hatt as [->|Hin]; [|right; by apply list_elem_of_further].
    unfold Rmax. destruct (Rle_dec b v); [right; apply list_elem_of_here|by left].
Qed.

(** After the loop [best_valid_acc] is the largest of its value before the
    loop and the validation accuracies the epochs reported: it never
    decreases, no reported accuracy exceeds it, and it is one of them unless
    it did not move.  The variable [model] still names the same object. *)
Theorem best_valid_acc_is_maximum n (st st' : @Script Optimizer) :
  loop n st = Some st' →
  ∃ new,
    stdout st' = stdout st ++ new ∧ length new = n ∧
    (best_valid_acc st <= best_valid_acc st')%R ∧
    (∀ line, line ∈ new → (line_valid line <= best_valid_acc st')%R) ∧
    (best_valid_acc st' = best_valid_acc st ∨
     ∃ line, line ∈ new ∧ line_valid line = best_valid_acc st') ∧
    model st' = model st.
Proof.
  intros Hrun.
  destruct (loop_run_inv _ _ _ _ Hrun) as (new & Hout & Hep & Hmodel & Hbest & _).
  exists new.
  destruct (foldl_Rmax_bounds (best_valid_acc st) (line_valid <$> new))
    as (Hb & Hall & Hatt).
  rewrite <-Hbest in Hb, Hall, Hatt.
  split_and!; try done.
  - apply (f_equal length) in Hep. by rewrite length_fmap, length_seq in Hep.
  - intros line Hline. rewrite Forall_fmap, Forall_forall in Hall. by apply Hall.
  - destruct Hatt as [?|Hin]; [by left|right].
    apply list_elem_of_fmap in Hin as (line & ? & ?). by exists line.
Qed.

Lemma best_model_stays_set n s (st st' : @Script Optimizer) :
  for_each (seq s n) body st = Some st' →
  is_Some (best_model st) → is_Some (best_model st').
Proof.
  revert s st. induction n as [|n IH]; intros s st Hrun Hsome; cbn in Hrun.
  { by injection Hrun as <-. }
  destruct (body s st) as [st1|] eqn:Hbody; cbn [mbind option_bind] in Hrun; [|done].
  apply (IH _ _ Hrun).
  destruct (loop_body_inv _ _ _ Hbody)
    as (loss & tr & va & te & m3 & _ & _ & _ & _ & Hcheck).
  destruct (Rlt_dec (best_valid_acc st) va), Hcheck as (_ & -> & _); [by eexists|done].
Qed.

(** Starting without a snapshot, the loop ends without one exactly when no
    epoch reported a validation accuracy above the best accuracy it started
    from. *)
Theorem best_model_unset_iff n (st st' : @Script Optimizer) :
  loop n st = Some st' → best_model st = None →
  best_model st' = None ↔
  ∀ line, line ∈ drop (length (stdout st)) (stdout st') →
          (line_valid line <= best_valid_acc st)%R.
Proof.
  unfold training_loop. generalize 1 as s. revert st.
  induction n as [|n IH]; intros st s Hrun Hnone; cbn [seq for_each] in Hrun.
  { injection Hrun as <-. rewrite drop_all. split; [|done].
    by intros _ line ?%elem_of_nil. }
  destruct (body s st) as [st1|] eqn:Hbody; cbn [mbind option_bind] in Hrun; [|done].
  destruct (loop_body_inv _ _ _ Hbody)
    as (loss & tr & va & te & m3 & _ & Hout & _ & _ & Hcheck).
  destruct (loop_run_inv _ _ _ _ Hrun) as (new & Hnew & _).
  assert (drop (length (stdout st)) (stdout st')
          = mkLine s loss tr va te :: drop (length (stdout st1)) (stdout st')) as ->.
  { rewrite Hnew, Hout. rewrite drop_app_length.
    by rewrite <-app_assoc, drop_app_length. }
  destruct (Rlt_dec (best_valid_acc st) va) as [Hbetter|Hnot].
  - destruct Hcheck as (_ & Hbm & _).
    destruct (best_model_stays_set _ _ _ _ Hrun) as [a Ha]; [by rewrite Hbm|].
    split; [congruence|]. intros Hall.
    specialize (Hall _ (list_elem_of_here _ _)). cbn in Hall. lra.
  - destruct Hcheck as (_ & Hbm & Hbv).
    rewrite (IH st1 (S s) Hrun) by congruence. rewrite Hbv. split.
    + intros Hall line [->|Hin]%elem_of_cons; [cbn; lra|by apply Hall].
    + intros Hall line Hin. by apply Hall, list_elem_of_further.
Qed.

(** ** The helper [train] *)

(** [train] raises when one of the training positions is not a node with a
    label. *)
Theorem train_index_error m (opt : Optimizer) g loss_fn i :
  i ∈ train_idx → length (y data) ≤ i →
  train backward_step m opt g data train_idx loss_fn = None.
Proof.
  intros Hi Hlen. unfold train.
  destruct (forward _ _ _ _) as [[[out m1] g1]|]; cbn [mbind option_bind]; [|done].
  destruct (index_rows out train_idx); cbn [mbind option_bind]; [|done].
  by rewrite (gather_outside _ _ i).
Qed.

(** On a graph and splits that fit, [train] with the negative log-likelihood
    returns: it runs the forward pass in training mode, which makes 4*N*H
    draws, hands the module over to the optimiser step, and the loss it
    reports is not negative. *)
Theorem train_returns_loss F H C N m (opt : Optimizer) g :
  ready F H C N data split_idx train_idx → GCN_dims F H C m →
  return_embeds m = false →
  ∃ loss out m1 g1,
    forward (GCN_train true m) g (x data) (adj_t data) = Some (out, m1, g1) ∧
    train backward_step m opt g data train_idx nll_loss =
      Some (loss,
            (backward_step opt (GCN_train true m) g data train_idx m1).2,
            (backward_step opt (GCN_train true m) g data train_idx m1).1,
            g1) ∧
    (0 <= loss)%R ∧
    offset g1 = offset g + 4 * (N * H).
Proof.
  intros (HH & HC & HN & Hx & Hadj & Hy & Hlab & Htrain & Hsplits) Hdims Hre.
  apply Forall_cons in Hsplits as [(itr & Htr & [Hne Hidx]) _].
  assert (itr = train_idx) as -> by congruence.
  assert (GCN_dims F H C (GCN_train true m)) as Hdims' by (by apply GCN_train_dims).
  destruct (forward_training_state F H C (GCN_train true m) g (x data) (adj_t data) N)
    as (out & m1 & g1 & Hfw & Hoff & _); try done.
  destruct (forward_returns F H C (GCN_train true m) g (x data) (adj_t data) N)
    as (e & m1' & g1' & Hfw' & [He0 He1] & _); try done; [by right|].
  cbn [GCN_train return_embeds] in Hfw'. rewrite Hre in Hfw'.
  assert (out = LogSoftmax e) as Hout by congruence.
  destruct (gather_within (y data) train_idx) as (yt & Hg & Hyt & Hin);
    [by rewrite Hy|].
  set (out_train := mkTensor (length train_idx) (size1 out)
                      (fun i j => item out (train_idx !!! i) j)).
  assert (index_rows out train_idx = Some out_train) as Hrows.
  { unfold index_rows. rewrite decide_True; [done|].
    by rewrite Hout; cbn; rewrite He0. }
  destruct (nll_loss out_train yt) as [loss|] eqn:Hloss.
  2:{ exfalso. unfold nll_loss in Hloss. rewrite decide_True in Hloss; [done|].
      split; [done|]. cbn. rewrite Hout; cbn. rewrite He1. apply Forall_forall.
      intros c Hc%Hin. rewrite Forall_forall in Hlab. by apply Hlab. }
  exists loss, out, m1, g1. split; [done|]. split; [|split; [|done]].
  - unfold train. rewrite Hfw. cbn [mbind option_bind].
    rewrite Hrows. cbn [mbind option_bind]. rewrite Hg. cbn [mbind option_bind].
    rewrite Hloss. cbn [mbind option_bind].
    by destruct (backward_step opt (GCN_train true m) g data train_idx m1).
  - apply (nll_loss_nonneg out_train yt); [|done].
    intros i k Hk. cbn in Hk |- *. rewrite Hout in Hk |- *.
    by apply LogSoftmax_nonpositive.
Qed.

(** The loop does not call [train]: it repeats its statements.  An epoch
    that returns did what [train] with the negative log-likelihood does on
    the model, with the optimiser and generator of the script, and then what
    [test] does on the module [train] leaves; the loss of the report is the
    one [train] returns. *)
Theorem loop_body_is_train_then_test epoch (st st' : @Script Optimizer) :
  body epoch st = Some st' →
  ∃ m loss m2 opt g1 tr va te m3,
    heap st !! model st = Some m ∧
    train backward_step m (optimizer st) (generator st) data train_idx nll_loss
      = Some (loss, m2, opt, g1) ∧
    test m2 g1 data split_idx false = Some (tr, va, te, m3, generator st') ∧
    optimizer st' = opt ∧
    heap st' !! model st' = Some m3 ∧
    stdout st' = stdout st ++ [mkLine epoch loss tr va te].
Proof.
  unfold loop_body. intros Hbody.
  destruct (heap st !! model st) as [m|] eqn:Hm; cbn [mbind option_bind] in Hbody;
    [|done].
  apply lookup_lt_Some in Hm as Hlt.
  destruct (forward (GCN_train true m) (generator st) (x data) (adj_t data))
    as [[[out m1] g1]|] eqn:Hfw; cbn [mbind option_bind] in Hbody; [|done].
  destruct (index_rows out train_idx) as [out_train|] eqn:Hrows;
    cbn [mbind option_bind] in Hbody; [|done].
  destruct (gather (y data) train_idx) as [y_train|] eqn:Hy;
    cbn [mbind option_bind] in Hbody; [|done].
  destruct (nll_loss out_train y_train) as [loss|] eqn:Hloss;
    cbn [mbind option_bind] in Hbody; [|done].
  destruct (backward_step (optimizer st) (GCN_train true m) (generator st) data
              train_idx m1) as [opt m2] eqn:Hstep.
  destruct (test m2 g1 data split_idx false) as [[[[[tr va] te] m3] g3]|] eqn:Htest;
    cbn [mbind option_bind] in Hbody; [|done].
  assert (train backward_step m (optimizer st) (generator st) data train_idx nll_loss
          = Some (loss, m2, opt, g1)) as Htrain.
  { unfold train. cbv zeta. rewrite Hfw. cbn [mbind option_bind].
    rewrite Hrows. cbn [mbind option_bind]. rewrite Hy. cbn [mbind option_bind].
    rewrite Hloss. cbn [mbind option_bind]. by rewrite Hstep. }
  exists m, loss, m2, opt, g1, tr, va, te, m3.
  destruct (Rlt_dec (best_valid_acc st) va).
  - unfold deepcopy in Hbody.
    rewrite list_lookup_insert_eq in Hbody by done.
    cbn [mbind option_bind] in Hbody. injection Hbody as <-.
    cbn [heap model stdout generator optimizer].
    rewrite lookup_app_l by (by rewrite length_insert).
    rewrite list_lookup_insert_eq by done. by split_and!.
  - injection Hbody as <-. cbn [heap model stdout generator optimizer].
    rewrite list_lookup_insert_eq by done. by split_and!.
Qed.

End TrainingLoop.

(** ** A run of the loop on the three-node graph *)

(** [forward] never touches the output layer nor the flag. *)
Lemma forward_body_keeps_last a i t self g t' self' g' :
  forward_body a i (t, self, g) = Some (t', self', g') →
  last_gcn self' = last_gcn self ∧ return_embeds self' = return_embeds self.
Proof.
  unfold forward_body.
  destruct (gcnlayers self !! i) as [conv|]; cbn [mbind option_bind]; [|done].
  destruct (GCNConv_forward conv t a) as [t1|]; cbn [mbind option_bind]; [|done].
  destruct (bns self !! i) as [bn|]; cbn [mbind option_bind]; [|done].
  destruct (BatchNorm1d_forward bn t1) as [[t2 bn']|];
    cbn [mbind option_bind]; [|done].
  destruct (dropout _ _ _ _) as [t3 g3].
  intros Hb. by injection Hb as _ <- _.
Qed.

Lemma forward_keeps_last self g t a out self' g' :
  forward self g t a = Some (out, self', g') →
  last_gcn self' = last_gcn self ∧ return_embeds self' = return_embeds self.
Proof.
  unfold forward. intros Hfw.
  assert (∀ range t0 s0 g0 t1 s1 g1,
            for_each range (forward_body a) (t0, s0, g0) = Some (t1, s1, g1) →
            last_gcn s1 = last_gcn s0 ∧ return_embeds s1 = return_embeds s0) as Hloop.
  { induction range as [|i range IH]; intros t0 s0 g0 t1 s1 g1 Hrun;
      cbn [for_each] in Hrun.
    - by injection Hrun as _ <- _.
    - destruct (forward_body a i (t0, s0, g0)) as [[[t2 s2] g2]|] eqn:Hb;
        cbn [mbind option_bind] in Hrun; [|done].
      destruct (forward_body_keeps_last _ _ _ _ _ _ _ _ Hb) as [<- <-].
      by eapply IH. }
  destruct (for_each _ _ (t, self, g)) as [[[t1 s1] g1]|] eqn:Hrun;
    cbn [mbind option_bind] in Hfw; [|done].
  destruct (GCNConv_forward (last_gcn s1) t1 a); cbn [mbind option_bind] in Hfw;
    [|done].
  injection Hfw as _ <- _. by eapply Hloop.
Qed.

Lemma example_splits_lookup :
  example_splits !! "train" = Some [0] ∧
  example_splits !! "valid" = Some [1] ∧
  example_splits !! "test" = Some [2].
Proof. apply (dict_of_zip_three [0] [1] [2]). Qed.

Lemma example_ready : ready 2 3 2 3 example_graph example_splits [0].
Proof.
  destruct example_splits_lookup as (Htr & Hva & Hte).
  unfold ready. split_and!; try done; try lia.
  - adj_over_explicit.
  - cbn. repeat (constructor; [lia|]). constructor.
  - repeat (constructor; [eexists; split; [eassumption|]; split; [done|];
                          repeat (constructor; [lia|]); constructor|]).
    constructor.
Qed.

(** With equal entries in a row, the arg-max is the first position. *)
Lemma argmax_row_tie (e : Tensor) i :
  item e i 0 = item e i 1 →
  (if Rlt_dec (item (LogSoftmax e) i 0) (item (LogSoftmax e) i 1) then 1 else 0) = 0.
Proof.
  intros Heq. cbn [LogSoftmax item]. rewrite Heq.
  destruct (Rlt_dec _ _); [lra|done].
Qed.

(** On the three-node graph a module whose output layer is zero predicts
    class 0 everywhere; the node of the validation split has class 1. *)
Lemma test_example_zero m g :
  GCN_dims 2 3 2 m → zero_out m →
  ∃ tr va te,
    test m g example_graph example_splits false = Some (tr, va, te, GCN_eval m, g) ∧
    va = 0%R.
Proof.
  intros Hdims (Hre & Hw & Hb).
  destruct example_splits_lookup as (Htr & Hva & Hte).
  unfold test.
  destruct (forward_returns 2 3 2 (GCN_eval m) g (x example_graph)
              (adj_t example_graph) 3)
    as (e & m' & g' & -> & [He0 He1] & [h Hh] & _ & _ & Hsame);
    [lia|by apply GCN_train_dims|done|adj_over_explicit|by left|].
  destruct (Hsame eq_refl) as [-> ->]. cbn [mbind option_bind].
  cbn [GCN_eval GCN_train return_embeds]. rewrite Hre.
  assert (∀ i k, item e i k = 0%R) as Hzero.
  { intros i k. rewrite (GCNConv_forward_zero_weight _ _ _ _ Hw Hh). apply Hb. }
  unfold argmax. cbn [LogSoftmax size0 size1]. rewrite He0, He1.
  rewrite decide_False by lia.
  cbn [seq fmap list_fmap Nat.sub argmax_from].
  rewrite !argmax_row_tie by (by rewrite !Hzero).
  cbn [mbind option_bind]. unfold split_acc.
  rewrite Htr, Hva, Hte. cbn [mbind option_bind].
  change (gather (y example_graph) [0]) with (Some [0]).
  change (gather (y example_graph) [1]) with (Some [1]).
  change (gather (y example_graph) [2]) with (Some [0]).
  change (gather [0; 0; 0] [0]) with (Some [0]).
  change (gather [0; 0; 0] [1]) with (Some [0]).
  change (gather [0; 0; 0] [2]) with (Some [0]).
  cbn [mbind option_bind]. unfold Evaluator_eval.
  rewrite !decide_True by done. cbn [mbind option_bind].
  eexists _, _, _. split; [done|].
  change (correct [1] [0]) with 0. cbn [INR]. lra.
Qed.

Lemma no_step_keeps_dims F H C : keeps_dims F H C no_step.
Proof. by intros opt m g d idx m1 Hm1. Qed.

Lemma example_script_dims : model_dims 2 3 2 example_script.
Proof. eexists. split; [reflexivity|]. apply GCN_new_dims. Qed.

(** Along a run on the three-node graph with an optimiser that changes
    nothing, every epoch reports validation accuracy 0. *)
Lemma example_run_valid n s (st st' : @Script unit) :
  (∃ m, heap st !! model st = Some m ∧ GCN_dims 2 3 2 m ∧ zero_out m) →
  for_each (seq s n) (loop_body no_step example_graph example_splits [0]) st
    = Some st' →
  ∀ line, line ∈ drop (length (stdout st)) (stdout st') → line_valid line = 0%R.
Proof.
  revert s st. induction n as [|n IH]; intros s st Hst Hrun; cbn [seq for_each] in Hrun.
  { injection Hrun as <-. rewrite drop_all. by intros line ?%elem_of_nil. }
  destruct (loop_body no_step example_graph example_splits [0] s st) as [st1|] eqn:Hbody;
    cbn [mbind option_bind] in Hrun; [|done].
  destruct Hst as (m & Hm & Hdims & Hre & Hw & Hb).
  destruct (loop_body_steps _ _ _ _ _ _ _ Hbody)
    as (m0 & out & m1 & g1 & loss & tr & va & te & m3 & g3 & Hm0 & Hfw & Htest & Hout
        & Hmodel & Hm3 & _).
  assert (m0 = m) as -> by congruence.
  cbn [no_step snd] in Htest.
  destruct (forward_returns 2 3 2 (GCN_train true m) (generator st) (x example_graph)
              (adj_t example_graph) 3)
    as (e & m1' & g1' & Hfw' & _ & _ & Hdims1 & _);
    [lia|by apply GCN_train_dims|done|adj_over_explicit|right; lia|].
  assert (m1' = m1) as -> by congruence.
  destruct (forward_keeps_last _ _ _ _ _ _ _ Hfw) as [Hlast Hflag].
  assert (zero_out m1) as Hzero1.
  { unfold zero_out. rewrite Hlast, Hflag. done. }
  destruct (test_example_zero m1 g1 Hdims1 Hzero1) as (tr' & va' & te' & Htest' & ->).
  assert (va = 0%R ∧ m3 = GCN_eval m1) as [-> ->] by (split; congruence).
  assert (∃ m, heap st1 !! model st1 = Some m ∧ GCN_dims 2 3 2 m ∧ zero_out m) as Hst1.
  { exists (GCN_eval m1). split; [done|]. split; [by apply GCN_train_dims|].
    destruct Hzero1 as (? & ? & ?). done. }
  pose proof (IH _ _ Hst1 Hrun) as Hrest.
  destruct (loop_run_inv _ _ _ _ _ _ _ _ Hrun) as (new & Hnew & _).
  rewrite Hnew, Hout, <-app_assoc, drop_app_length.
  rewrite Hnew, Hout, length_app, <-app_assoc in Hrest. cbn [length] in Hrest.
  intros line [->|Hline]%elem_of_cons; [done|].
  apply Hrest.
  replace (length (stdout st) + 1) with (length (stdout st ++ [mkLine s loss tr 0 te]))
    by (rewrite length_app; cbn; lia).
  by rewrite app_assoc, drop_app_length.
Qed.

(** *** Runs that take a snapshot *)

Lemma swapped_splits_lookup :
  swapped_splits !! "train" = Some [1] ∧
  swapped_splits !! "valid" = Some [0] ∧
  swapped_splits !! "test" = Some [2].
Proof. apply (dict_of_zip_three [1] [0] [2]). Qed.

Lemma swapped_ready_hidden H : 0 < H → ready 2 H 2 3 example_graph swapped_splits [1].
Proof.
  intros HH. destruct swapped_splits_lookup as (Htr & Hva & Hte).
  unfold ready. split_and!; try done; try lia.
  - adj_over_explicit.
  - cbn. repeat (constructor; [lia|]). constructor.
  - repeat (constructor; [eexists; split; [eassumption|]; split; [done|];
                          repeat (constructor; [lia|]); constructor|]).
    constructor.
Qed.

Lemma swapped_ready : ready 2 3 2 3 example_graph swapped_splits [1].
Proof. apply swapped_ready_hidden. lia. Qed.

(** With node 0, of class 0, for validation, a module whose output layer is
    zero has validation accuracy 1. *)
Lemma test_swapped_zero H m g :
  0 < H → GCN_dims 2 H 2 m → zero_out m →
  ∃ tr va te,
    test m g example_graph swapped_splits false = Some (tr, va, te, GCN_eval m, g) ∧
    va = 1%R.
Proof.
  intros HH Hdims (Hre & Hw & Hb).
  destruct swapped_splits_lookup as (Htr & Hva & Hte).
  unfold test.
  destruct (forward_returns 2 H 2 (GCN_eval m) g (x example_graph)
              (adj_t example_graph) 3)
    as (e & m' & g' & -> & [He0 He1] & [h Hh] & _ & _ & Hsame);
    [done|by apply GCN_train_dims|split; reflexivity|adj_over_explicit|by left|].
  destruct (Hsame eq_refl) as [-> ->]. cbn [mbind option_bind].
  cbn [GCN_eval GCN_train return_embeds]. rewrite Hre.
  assert (∀ i k, item e i k = 0%R) as Hzero.
  { intros i k. rewrite (GCNConv_forward_zero_weight _ _ _ _ Hw Hh). apply Hb. }
  unfold argmax. cbn [LogSoftmax size0 size1]. rewrite He0, He1.
  rewrite decide_False by lia.
  cbn [seq fmap list_fmap Nat.sub argmax_from].
  rewrite !argmax_row_tie by (by rewrite !Hzero).
  cbn [mbind option_bind]. unfold split_acc.
  rewrite Htr, Hva, Hte. cbn [mbind option_bind].
  change (gather (y example_graph) [0]) with (Some [0]).
  change (gather (y example_graph) [1]) with (Some [1]).
  change (gather (y example_graph) [2]) with (Some [0]).
  change (gather [0; 0; 0] [0]) with (Some [0]).
  change (gather [0; 0; 0] [1]) with (Some [0]).
  change (gather [0; 0; 0] [2]) with (Some [0]).
  cbn [mbind option_bind]. unfold Evaluator_eval.
  rewrite !decide_True by done. cbn [mbind option_bind].
  eexists _, _, _. split; [done|].
  change (correct [0] [0]) with 1. cbn [INR length]. lra.
Qed.

(** Along a run on the three-node graph with these splits and an optimiser
    that changes nothing, every epoch reports validation accuracy 1. *)
Lemma swapped_run_valid H n s (st st' : @Script unit) :
  0 < H →
  (∃ m, heap st !! model st = Some m ∧ GCN_dims 2 H 2 m ∧ zero_out m) →
  for_each (seq s n) (loop_body no_step example_graph swapped_splits [1]) st
    = Some st' →
  ∀ line, line ∈ drop (length (stdout st)) (stdout st') → line_valid line = 1%R.
Proof.
  intros HH. revert s st.
  induction n as [|n IH]; intros s st Hst Hrun; cbn [seq for_each] in Hrun.
  { injection Hrun as <-. rewrite drop_all. by intros line ?%elem_of_nil. }
  destruct (loop_body no_step example_graph swapped_splits [1] s st) as [st1|] eqn:Hbody;
    cbn [mbind option_bind] in Hrun; [|done].
  destruct Hst as (m & Hm & Hdims & Hre & Hw & Hb).
  destruct (loop_body_steps _ _ _ _ _ _ _ Hbody)
    as (m0 & out & m1 & g1 & loss & tr & va & te & m3 & g3 & Hm0 & Hfw & Htest & Hout
        & Hmodel & Hm3 & _).
  assert (m0 = m) as -> by congruence.
  cbn [no_step snd] in Htest.
  destruct (forward_returns 2 H 2 (GCN_train true m) (generator st) (x example_graph)
              (adj_t example_graph) 3)
    as (e & m1' & g1' & Hfw' & _ & _ & Hdims1 & _);
    [done|by apply GCN_train_dims|split; reflexivity|adj_over_explicit|right; lia|].
  assert (m1' = m1) as -> by congruence.
  destruct (forward_keeps_last _ _ _ _ _ _ _ Hfw) as [Hlast Hflag].
  assert (zero_out m1) as Hzero1.
  { unfold zero_out. rewrite Hlast, Hflag. done. }
  destruct (test_swapped_zero H m1 g1 HH Hdims1 Hzero1)
    as (tr' & va' & te' & Htest' & ->).
  assert (va = 1%R ∧ m3 = GCN_eval m1) as [-> ->] by (split; congruence).
  assert (∃ m, heap st1 !! model st1 = Some m ∧ GCN_dims 2 H 2 m ∧ zero_out m) as Hst1.
  { exists (GCN_eval m1). split; [done|]. split; [by apply GCN_train_dims|].
    destruct Hzero1 as (? & ? & ?). done. }
  pose proof (IH _ _ Hst1 Hrun) as Hrest.
  destruct (loop_run_inv _ _ _ _ _ _ _ _ Hrun) as (new & Hnew & _).
  rewrite Hnew, Hout, <-app_assoc, drop_app_length.
  rewrite Hnew, Hout, length_app, <-app_assoc in Hrest. cbn [length] in Hrest.
  intros line [->|Hline]%elem_of_cons; [done|].
  apply Hrest.
  replace (length (stdout st) + 1) with (length (stdout st ++ [mkLine s loss tr 1 te]))
    by (rewrite length_app; cbn; lia).
  by rewrite app_assoc, drop_app_length.
Qed.

Lemma example_script_zero :
  ∃ m, heap example_script !! model example_script = Some m ∧
       GCN_dims 2 3 2 m ∧ zero_out m.
Proof.
  exists (GCN_new 2 3 2 false zero_init). split; [reflexivity|].
  split; [apply GCN_new_dims|]. by split_and!.
Qed.

Lemma for_each_one {S} (f : nat → S → option S) i s s' :
  f i s = Some s' → for_each [i] f s = Some s'.
Proof. intros Hf. cbn [for_each]. by rewrite Hf. Qed.

Lemma training_loop_one {Optimizer} (step : Optimizer → GCN → Generator → Data →
      list nat → GCN → Optimizer * GCN) d splits idx (st st' : Script) :
  training_loop step d splits idx 1 st = Some st' →
  loop_body step d splits idx 1 st = Some st'.
Proof.
  unfold training_loop. cbn [seq for_each].
  by destruct (loop_body step d splits idx 1 st).
Qed.

Lemma training_loop_two {Optimizer} (step : Optimizer → GCN → Generator → Data →
      list nat → GCN → Optimizer * GCN) d splits idx (st st' : Script) :
  training_loop step d splits idx 2 st = Some st' →
  for_each (seq 1 2) (loop_body step d splits idx) st = Some st' ∧
  ∃ st1, loop_body step d splits idx 1 st = Some st1 ∧
         for_each (seq 2 1) (loop_body step d splits idx) st1 = Some st'.
Proof.
  unfold training_loop. intros Hrun. split; [done|].
  cbn [seq for_each] in Hrun |- *.
  destruct (loop_body step d splits idx 1 st) as [st1|];
    cbn [mbind option_bind] in Hrun; [|done].
  by exists st1.
Qed.

(** The first epoch with these splits reports a validation accuracy above
    the best so far, and the first epoch with the other splits does not. *)
Lemma swapped_first_epoch_line st' line :
  loop_body no_step example_graph swapped_splits [1] 1 example_script = Some st' →
  stdout st' = stdout example_script ++ [line] →
  (best_valid_acc example_script < line_valid line)%R.
Proof.
  intros Hbody Hout. apply (for_each_one _ 1) in Hbody.
  rewrite (swapped_run_valid 3 1 1 example_script st' ltac:(lia) example_script_zero
             Hbody line).
  - change (best_valid_acc example_script) with 0%R. lra.
  - rewrite Hout, drop_app_length. apply list_elem_of_here.
Qed.

Lemma example_first_epoch_line st' line :
  loop_body no_step example_graph example_splits [0] 1 example_script = Some st' →
  stdout st' = stdout example_script ++ [line] →
  ¬ (best_valid_acc example_script < line_valid line)%R.
Proof.
  intros Hbody Hout. apply (for_each_one _ 1) in Hbody.
  rewrite (example_run_valid 1 1 example_script st' example_script_zero Hbody line).
  - change (best_valid_acc example_script) with 0%R. lra.
  - rewrite Hout, drop_app_length. apply list_elem_of_here.
Qed.

Lemma start_example_ready :
  ready (num_features example_graph) (hidden_dim (args "cpu")) 2 3
        example_graph swapped_splits [1].
Proof. apply (swapped_ready_hidden 256). lia. Qed.

Lemma training_loop_checkpoints_witness :
  (ready (num_features example_graph) (hidden_dim (args "cpu")) 2 3
         example_graph swapped_splits [1] ∧
   keeps_dims (num_features example_graph) (hidden_dim (args "cpu")) 2 no_step ∧
   ∃ st',
     training_loop no_step example_graph swapped_splits [1] (epochs (args "cpu"))
       (start (fun _ _ => tt) (args "cpu") example_graph 2 zero_init zero_init
              example_generator) = Some st' ∧
     line_epoch <$> stdout st' = seq 1 200) ∧
  (∃ st' line,
     loop_body no_step example_graph swapped_splits [1] 1 example_script = Some st' ∧
     stdout st' = stdout example_script ++ [line] ∧ line_epoch line = 1 ∧
     (best_valid_acc example_script < line_valid line)%R ∧
     best_valid_acc st' = line_valid line ∧
     ∃ copy m, best_model st' = Some copy ∧
               copy = length (heap example_script) ∧ copy ≠ model st' ∧
               heap st' !! copy = Some m ∧ heap st' !! model st' = Some m) ∧
  (∃ st' line,
     loop_body no_step example_graph example_splits [0] 1 example_script = Some st' ∧
     stdout st' = stdout example_script ++ [line] ∧ line_epoch line = 1 ∧
     ¬ (best_valid_acc example_script < line_valid line)%R ∧
     best_valid_acc st' = best_valid_acc example_script ∧
     best_model st' = best_model example_script).
Proof.
  pose proof start_example_ready as Hready.
  pose proof (no_step_keeps_dims (num_features example_graph)
                (hidden_dim (args "cpu")) 2) as Hkeeps.
  split; [|split].
  - split; [exact Hready|]. split; [exact Hkeeps|].
    exact (proj2 (proj2 (proj2 (proj2
             (training_loop_checkpoints (fun _ _ => tt) no_step example_graph
                swapped_splits [1]))))
             "cpu" 2 zero_init zero_init example_generator 3 Hready Hkeeps).
  - destruct (loop_total no_step example_graph swapped_splits [1] 2 3 2 3 1 1
                example_script swapped_ready (no_step_keeps_dims 2 3 2)
                example_script_dims) as (st' & Hrun & _).
    pose proof (training_loop_one _ _ _ _ _ _ Hrun) as Hbody.
    destruct (proj1 (proj2
                (training_loop_checkpoints (fun _ _ => tt) no_step example_graph
                   swapped_splits [1])) 1 example_script st' Hbody)
      as (line & Hout & Hep & Hyes & _).
    pose proof (swapped_first_epoch_line st' line Hbody Hout) as Hlt.
    exists st', line.
    split; [exact Hbody|]. split; [exact Hout|]. split; [exact Hep|].
    split; [exact Hlt|]. exact (Hyes Hlt).
  - destruct (loop_total no_step example_graph example_splits [0] 2 3 2 3 1 1
                example_script example_ready (no_step_keeps_dims 2 3 2)
                example_script_dims) as (st' & Hrun & _).
    pose proof (training_loop_one _ _ _ _ _ _ Hrun) as Hbody.
    destruct (proj1 (proj2
                (training_loop_checkpoints (fun _ _ => tt) no_step example_graph
                   example_splits [0])) 1 example_script st' Hbody)
      as (line & Hout & Hep & _ & Hno).
    pose proof (example_first_epoch_line st' line Hbody Hout) as Hnot.
    exists st', line.
    split; [exact Hbody|]. split; [exact Hout|]. split; [exact Hep|].
    split; [exact Hnot|]. exact (Hno Hnot).
Defined.

Lemma best_model_stays_unset_witness :
  ∃ st',
    training_loop no_step example_graph example_splits [0] 2 example_script
      = Some st' ∧
    best_model example_script = None ∧
    best_valid_acc example_script = 0%R ∧
    (∀ line, line ∈ drop (length (stdout example_script)) (stdout st') →
             ¬ (0 < line_valid line)%R) ∧
    best_model st' = None ∧
    line_epoch <$> drop (length (stdout example_script)) (stdout st') = seq 1 2.
Proof.
  destruct (loop_total no_step example_graph example_splits [0] 2 3 2 3 2 1
              example_script example_ready (no_step_keeps_dims 2 3 2)
              example_script_dims) as (st' & Hrun & _).
  assert (∀ line, line ∈ drop (length (stdout example_script)) (stdout st') →
                  ¬ (0 < line_valid line)%R) as Hvalid.
  { intros line Hline.
    rewrite (example_run_valid 2 1 example_script st'); [lra| |exact Hrun|exact Hline].
    exists (GCN_new 2 3 2 false zero_init). split; [reflexivity|].
    split; [apply GCN_new_dims|]. by split_and!. }
  exists st'. split_and!; [exact Hrun|reflexivity|reflexivity|exact Hvalid| |].
  - exact (proj1 (best_model_stays_unset no_step example_graph example_splits [0]
                    2 example_script st' Hrun eq_refl eq_refl Hvalid)).
  - exact (proj2 (best_model_stays_unset no_step example_graph example_splits [0]
                    2 example_script st' Hrun eq_refl eq_refl Hvalid)).
Defined.

Lemma test_accuracies_bounded_witness :
  ready 2 3 2 3 example_graph example_splits [0] ∧
  GCN_dims 2 3 2 (GCN_new 2 3 2 false zero_init) ∧
  ∃ tr va te m',
    test (GCN_new 2 3 2 false zero_init) example_generator example_graph
         example_splits false = Some (tr, va, te, m', example_generator) ∧
    (0 <= tr <= 1)%R ∧ (0 <= va <= 1)%R ∧ (0 <= te <= 1)%R ∧
    eval_mode m' ∧ GCN_dims 2 3 2 m' ∧
    gcnlayers m' = gcnlayers (GCN_new 2 3 2 false zero_init) ∧
    last_gcn m' = last_gcn (GCN_new 2 3 2 false zero_init).
Proof.
  pose proof example_ready as Hready.
  assert (GCN_dims 2 3 2 (GCN_new 2 3 2 false zero_init)) as Hdims
    by (repeat split; reflexivity).
  split_and!; [exact Hready|exact Hdims|].
  exact (test_accuracies_bounded 2 3 2 3 example_graph example_splits [0] _
           example_generator Hready Hdims).
Defined.

Lemma best_valid_acc_is_maximum_witness :
  ∃ st',
    training_loop no_step example_graph example_splits [0] 2 example_script
      = Some st' ∧
    ∃ new,
      stdout st' = stdout example_script ++ new ∧ length new = 2 ∧
      (best_valid_acc example_script <= best_valid_acc st')%R ∧
      (∀ line, line ∈ new → (line_valid line <= best_valid_acc st')%R) ∧
      (best_valid_acc st' = best_valid_acc example_script ∨
       ∃ line, line ∈ new ∧ line_valid line = best_valid_acc st') ∧
      model st' = model example_script.
Proof.
  destruct (loop_total no_step example_graph example_splits [0] 2 3 2 3 2 1
              example_script example_ready (no_step_keeps_dims 2 3 2)
              example_script_dims) as (st' & Hrun & _).
  exists st'. split; [exact Hrun|].
  exact (best_valid_acc_is_maximum no_step example_graph example_splits [0]
           2 example_script st' Hrun).
Defined.

Lemma best_model_unset_iff_witness :
  ∃ st',
    training_loop no_step example_graph example_splits [0] 2 example_script
      = Some st' ∧
    best_model example_script = None ∧
    (best_model st' = None ↔
     ∀ line, line ∈ drop (length (stdout example_script)) (stdout st') →
             (line_valid line <= best_valid_acc example_script)%R).
Proof.
  destruct (loop_total no_step example_graph example_splits [0] 2 3 2 3 2 1
              example_script example_ready (no_step_keeps_dims 2 3 2)
              example_script_dims) as (st' & Hrun & _).
  exists st'. split_and!; [exact Hrun|reflexivity|].
  exact (best_model_unset_iff no_step example_graph example_splits [0]
           2 example_script st' Hrun eq_refl).
Defined.

(** ** A run that takes a snapshot and goes on *)

(** An epoch whose report beats the best accuracy so far leaves a
    snapshot. *)
Lemma loop_body_snapshot {Optimizer} (step : Optimizer → GCN → Generator → Data →
      list nat → GCN → Optimizer * GCN) d splits idx epoch (st st' : Script) :
  loop_body step d splits idx epoch st = Some st' →
  (∀ line, stdout st' = stdout st ++ [line] →
           (best_valid_acc st < line_valid line)%R) →
  is_Some (best_model st').
Proof.
  intros Hbody Hline.
  destruct (loop_body_inv _ _ _ _ _ _ _ Hbody)
    as (loss & tr & va & te & m3 & _ & Hout & _ & _ & Hcheck).
  specialize (Hline _ Hout). cbn [line_valid] in Hline.
  destruct (Rlt_dec (best_valid_acc st) va) as [_|Hnot]; [|done].
  destruct Hcheck as (_ & -> & _). by eexists.
Qed.

Lemma swapped_run_two_snapshot st :
  training_loop no_step example_graph swapped_splits [1] 2 example_script = Some st →
  ∃ a, best_model st = Some a.
Proof.
  intros Hrun. apply training_loop_two in Hrun as (_ & st1 & Hbody & Hrest).
  apply (best_model_stays_set _ _ _ _ _ _ _ _ Hrest).
  apply (loop_body_snapshot _ _ _ _ _ _ _ Hbody).
  intros line Hout. by apply (swapped_first_epoch_line st1).
Qed.

(** In the run of two epochs both report accuracy 1, so that the epoch of
    the snapshot is the first. *)
Lemma swapped_snapshot_first st k (line : Line) :
  training_loop no_step example_graph swapped_splits [1] 2 example_script = Some st →
  1 ≤ k ≤ 2 →
  line ∈ drop (length (stdout example_script)) (stdout st) →
  (∀ l, l ∈ drop (length (stdout example_script)) (stdout st) →
        (line_epoch l < k → (line_valid l < line_valid line)%R) ∧
        (k < line_epoch l → (line_valid l <= line_valid line)%R)) →
  k = 1.
Proof.
  intros Hrun Hk Hline Hothers.
  apply training_loop_two in Hrun as (Hrun & _).
  pose proof (swapped_run_valid 3 2 1 example_script st ltac:(lia) example_script_zero
                Hrun) as Hvalid.
  destruct (loop_run_inv _ _ _ _ _ _ _ _ Hrun) as (new & Hnew & Hep & _).
  rewrite Hnew, drop_app_length in Hline, Hothers, Hvalid.
  destruct new as [|l1 new]; [done|]. injection Hep as Hep1 _.
  destruct (decide (k = 1)) as [|Hne]; [done|]. exfalso.
  destruct (Hothers l1 (list_elem_of_here _ _)) as [Hbefore _].
  rewrite (Hvalid l1 (list_elem_of_here _ _)), (Hvalid line Hline) in Hbefore.
  assert (1 < 1)%R; [apply Hbefore; lia|lra].
Qed.

Lemma snapshot_of_best_epoch_witness :
  ∃ st a,
    training_loop no_step example_graph swapped_splits [1] 2 example_script
      = Some st ∧
    best_model example_script = None ∧ best_model st = Some a ∧
    ∃ k st_k line,
      k = 1 ∧
      1 ≤ k ≤ 2 ∧
      training_loop no_step example_graph swapped_splits [1] k example_script
        = Some st_k ∧
      for_each (seq (S k) (2 - k))
        (loop_body no_step example_graph swapped_splits [1]) st_k = Some st ∧
      last (stdout st_k) = Some line ∧ line_epoch line = k ∧
      line_valid line = best_valid_acc st ∧
      a ≠ model st ∧ a < length (heap st) ∧
      heap st !! a = heap st_k !! model st_k ∧
      line ∈ drop (length (stdout example_script)) (stdout st) ∧
      (∀ l, l ∈ drop (length (stdout example_script)) (stdout st) →
            (line_epoch l < k → (line_valid l < line_valid line)%R) ∧
            (k < line_epoch l → (line_valid l <= line_valid line)%R)).
Proof.
  destruct (loop_total no_step example_graph swapped_splits [1] 2 3 2 3 2 1
              example_script swapped_ready (no_step_keeps_dims 2 3 2)
              example_script_dims) as (st & Hrun & _).
  destruct (swapped_run_two_snapshot st Hrun) as [a Ha].
  destruct (snapshot_of_best_epoch no_step example_graph swapped_splits [1]
              2 example_script st a Hrun eq_refl Ha)
    as (k & st_k & line & Hk & Hrunk & Hrest & Hlast & Hek & Hval & Hne & Hlt & Hsnap
        & Hline & Hothers).
  exists st, a. split; [exact Hrun|]. split; [reflexivity|]. split; [exact Ha|].
  exists k, st_k, line.
  split; [exact (swapped_snapshot_first st k line Hrun Hk Hline Hothers)|].
  split; [exact Hk|]. split; [exact Hrunk|]. split; [exact Hrest|].
  split; [exact Hlast|]. split; [exact Hek|]. split; [exact Hval|].
  split; [exact Hne|]. split; [exact Hlt|]. split; [exact Hsnap|].
  split; [exact Hline|exact Hothers].
Defined.

(** ** [train] on the three-node graph *)

Lemma train_index_error_witness :
  5 ∈ [5] ∧ length (y example_graph) ≤ 5 ∧
  train no_step (GCN_new 2 3 2 false zero_init) tt example_generator
        example_graph [5] nll_loss = None.
Proof.
  assert (5 ∈ [5]) as Hin by apply list_elem_of_here.
  assert (length (y example_graph) ≤ 5) as Hlen by (cbn; lia).
  split_and!; [exact Hin|exact Hlen|].
  exact (train_index_error no_step example_graph [5]
           (GCN_new 2 3 2 false zero_init) tt example_generator nll_loss 5 Hin Hlen).
Defined.

Lemma train_returns_loss_witness :
  ready 2 3 2 3 example_graph example_splits [0] ∧
  GCN_dims 2 3 2 (GCN_new 2 3 2 false zero_init) ∧
  return_embeds (GCN_new 2 3 2 false zero_init) = false ∧
  ∃ loss out m1 g1,
    forward (GCN_train true (GCN_new 2 3 2 false zero_init)) example_generator
            (x example_graph) (adj_t example_graph) = Some (out, m1, g1) ∧
    train no_step (GCN_new 2 3 2 false zero_init) tt example_generator
          example_graph [0] nll_loss =
      Some (loss,
            (no_step tt (GCN_train true (GCN_new 2 3 2 false zero_init))
                     example_generator example_graph [0] m1).2,
            (no_step tt (GCN_train true (GCN_new 2 3 2 false zero_init))
                     example_generator example_graph [0] m1).1,
            g1) ∧
    (0 <= loss)%R ∧
    offset g1 = offset example_generator + 4 * (3 * 3).
Proof.
  pose proof example_ready as Hready.
  pose proof (GCN_new_dims 2 3 2 false zero_init) as Hdims.
  split_and!; [exact Hready|exact Hdims|reflexivity|].
  exact (train_returns_loss no_step example_graph example_splits [0] 2 3 2 3
           (GCN_new 2 3 2 false zero_init) tt example_generator
           Hready Hdims eq_refl).
Defined.

Lemma loop_body_is_train_then_test_witness :
  ∃ st',
    loop_body no_step example_graph example_splits [0] 1 example_script = Some st' ∧
    ∃ m loss m2 opt g1 tr va te m3,
      heap example_script !! model example_script = Some m ∧
      train no_step m (optimizer example_script) (generator example_script)
            example_graph [0] nll_loss = Some (loss, m2, opt, g1) ∧
      test m2 g1 example_graph example_splits false
        = Some (tr, va, te, m3, generator st') ∧
      optimizer st' = opt ∧
      heap st' !! model st' = Some m3 ∧
      stdout st' = stdout example_script ++ [mkLine 1 loss tr va te].
Proof.
  destruct (loop_total no_step example_graph example_splits [0] 2 3 2 3 1 1
              example_script example_ready (no_step_keeps_dims 2 3 2)
              example_script_dims) as (st' & Hrun & _).
  pose proof (training_loop_one _ _ _ _ _ _ Hrun) as Hbody.
  exists st'. split; [exact Hbody|].
  exact (loop_body_is_train_then_test no_step example_graph example_splits [0]
           1 example_script st' Hbody).
Defined.
